(** * Minimap character renderer and token colour tracker

    A shallow embedding of [src/vs/editor/common/view/minimapCharRenderer.ts]
    and the properties its specification states about it.

    The program is TypeScript, so its numbers are IEEE 754 binary64 values.
    Wherever the source computes with fractions (the softening ratios, the
    blend factor, the alpha channel, the luminance test) the embedding uses
    Rocq's primitive floats, which are the same binary64 numbers.  Integer
    quantities (indices, coordinates, character codes, stored bytes) are [Z]. *)

From Stdlib Require Import ZArith Lia Bool String.
From Stdlib Require Import Floats.PrimFloat Floats.FloatOps Floats.SpecFloat
  Floats.FloatAxioms.
From Stdlib Require Import Uint63.
From stdpp Require Import base list.

Local Open Scope Z_scope.

(** ** JavaScript numbers, arrays and typed arrays *)

Module JS.

(** A (small) integer as a JavaScript number. *)
Definition number_of_Z (z : Z) : float :=
  if z <? 0 then PrimFloat.opp (PrimFloat.of_uint63 (Uint63.of_Z (- z)))
  else PrimFloat.of_uint63 (Uint63.of_Z z).

(** [Math.floor] of a finite number, as an integer; [None] for NaN and the
    infinities. *)
Definition floorZ (x : float) : option Z :=
  match Prim2SF x with
  | S754_zero _ => Some 0
  | S754_finite s m e =>
      let v := if 0 <=? e then Z.pos m * 2 ^ e else Z.pos m / 2 ^ (- e) in
      let exact := if 0 <=? e then true else Z.pos m mod 2 ^ (- e) =? 0 in
      Some (if s then (if exact then - v else - v - 1) else v)
  | _ => None
  end.

(** [Math.round]: the nearest integer, halves rounded up.  From 2^52 on every
    number is an integer already. *)
Definition Math_round (x : float) : float :=
  match floorZ x with
  | None => x
  | Some f =>
      if PrimFloat.leb 4503599627370496 (PrimFloat.abs x) then x
      else if PrimFloat.leb 0.5 (PrimFloat.sub x (number_of_Z f))
           then number_of_Z (f + 1)
           else number_of_Z f
  end.

(** The conversion a [Uint8ClampedArray] applies to a stored number
    (ECMAScript ToUint8Clamp): NaN becomes 0, the value is clamped to 0..255
    and rounded to the nearest integer, halves to the even neighbour. *)
Definition ToUint8Clamp (x : float) : Z :=
  if PrimFloat.is_nan x then 0
  else if PrimFloat.leb x 0 then 0
  else if PrimFloat.leb 255 x then 255
  else match floorZ x with
       | Some f =>
           let half := PrimFloat.add (number_of_Z f) 0.5 in
           if PrimFloat.ltb half x then f + 1
           else if PrimFloat.ltb x half then f
           else if Z.even f then f else f + 1
       | None => 0
       end.

(** A [Uint8ClampedArray] is the list of its bytes.  Reading outside the
    array gives [undefined], which the arithmetic of the source turns into
    NaN; writing outside the array (a negative index included) does
    nothing. *)
Abbreviation Uint8ClampedArray := (list Z).

Definition is_byte (z : Z) : Prop := 0 <= z <= 255.

Definition typed_get (arr : Uint8ClampedArray) (i : Z) : float :=
  if i <? 0 then PrimFloat.nan
  else match arr !! Z.to_nat i with
       | Some b => number_of_Z b
       | None => PrimFloat.nan
       end.

Definition store (arr : Uint8ClampedArray) (i : Z) (b : Z) : Uint8ClampedArray :=
  if i <? 0 then arr else <[Z.to_nat i := b]> arr.

Definition typed_set (arr : Uint8ClampedArray) (i : Z) (v : float)
  : Uint8ClampedArray :=
  store arr i (ToUint8Clamp v).

(** An ordinary array is a list of slots; an empty slot (a hole) reads as
    [undefined], as does every index outside the array.  Assigning at or
    past the end extends the array. *)
Definition array_get {A} (arr : list (option A)) (i : Z) : option A :=
  if i <? 0 then None else mjoin (arr !! Z.to_nat i).

Definition array_set {A} (arr : list (option A)) (i : nat) (v : A)
  : list (option A) :=
  if (i <? length arr)%nat then <[i := Some v]> arr
  else arr ++ replicate (i - length arr) None ++ [Some v].

End JS.

(** ** Colours *)

(** Modelled from the spec: [RGBA8] is declared in [vs/editor/common/core/rgba],
    outside the sources at hand.  The spec's data model: four 8-bit unsigned
    channels (r, g, b, a), a value type with no identity.  The constructor
    clamps each number it is given into 0..255 and truncates it. *)
Module RGBA8.

Record t : Type := mk { r : Z; g : Z; b : Z; a : Z }.

Definition _clamp (c : float) : Z :=
  if PrimFloat.ltb c 0 then 0
  else if PrimFloat.ltb 255 c then 255
  else match JS.floorZ c with Some f => f | None => 0 end.

Definition new (r g b a : float) : t :=
  mk (_clamp r) (_clamp g) (_clamp b) (_clamp a).

Definition Empty : t := new 0 0 0 0.

(** Every channel is a byte. *)
Definition valid (c : t) : Prop :=
  JS.is_byte (r c) /\ JS.is_byte (g c) /\ JS.is_byte (b c) /\ JS.is_byte (a c).

End RGBA8.

(** Modelled from the spec: the entries of the upstream colour map ([Color] of
    [vs/base/common/color]) have floating-point channels; the relative
    luminance is an external colour-math utility, taken here as a datum of
    the entry. *)
Module Color.

Record RGBA : Type := mkRGBA { r : float; g : float; b : float; a : float }.

Record t : Type := mk { rgba : RGBA; getRelativeLuminance : float }.

End Color.

(** Modelled from the spec: the colour identifiers are declared in
    [vs/editor/common/modes] as the constant enumeration None = 0,
    DefaultForeground = 1, DefaultBackground = 2. *)
Module ColorId.
Definition None : Z := 0.
Definition DefaultForeground : Z := 1.
Definition DefaultBackground : Z := 2.
End ColorId.

(** ** The colour tracker *)

(** How a call ends: normally, or by the [TypeError] JavaScript raises when a
    method is called on [undefined]. *)
Inductive completion : Type :=
| Normal
| TypeError.

(** The palette and flag a listener of the change event reads when the event
    reaches it. *)
Definition observed : Type := (list (option RGBA8.t) * bool)%type.

(** The tracker's fields.  The emitter is modelled by the deliveries it has
    made so far, oldest first. *)
Record MinimapTokensColorTracker : Type := mkTracker {
  _colors : list (option RGBA8.t);
  _backgroundIsLight : bool;
  _onDidChange : list observed
}.

(** [this._onDidChange.fire(undefined)]: the listeners run synchronously and
    see the fields as they are now. *)
Definition fire (this : MinimapTokensColorTracker) : MinimapTokensColorTracker :=
  mkTracker (_colors this) (_backgroundIsLight this)
            (_onDidChange this ++ [(_colors this, _backgroundIsLight this)]).

(** The conversion in the loop body of [_updateColorMap]. *)
Definition toRGBA8 (c : Color.t) : RGBA8.t :=
  let source := Color.rgba c in
  RGBA8.new (Color.r source) (Color.g source) (Color.b source)
            (JS.Math_round (PrimFloat.mul (Color.a source) 255)).

(** The loop [for (colorId = 1; colorId < colorMap.length; colorId++)], with
    [n] iterations left. *)
Fixpoint _updateColorMap_loop (n : nat) (colorId : nat) (colorMap : list Color.t)
  (colors : list (option RGBA8.t)) : list (option RGBA8.t) :=
  match n with
  | O => colors
  | S n' =>
      match colorMap !! colorId with
      | Some c =>
          _updateColorMap_loop n' (S colorId) colorMap
            (JS.array_set colors colorId (toRGBA8 c))
      | None => colors
      end
  end.

(** [_updateColorMap], given what [TokenizationRegistry.getColorMap()]
    returns ([None] for [null]; an array, even an empty one, is truthy). *)
Definition _updateColorMap (colorMap : option (list Color.t))
  (this : MinimapTokensColorTracker) : completion * MinimapTokensColorTracker :=
  match colorMap with
  | None =>
      (Normal, mkTracker [Some RGBA8.Empty] true (_onDidChange this))
  | Some colorMap =>
      let colors :=
        _updateColorMap_loop (length colorMap - 1) 1 colorMap [Some RGBA8.Empty] in
      match colorMap !! Z.to_nat ColorId.DefaultBackground with
      | None =>
          (TypeError, mkTracker colors (_backgroundIsLight this) (_onDidChange this))
      | Some background =>
          let backgroundLuminosity := Color.getRelativeLuminance background in
          (Normal,
           fire (mkTracker colors (PrimFloat.leb 0.5 backgroundLuminosity)
                           (_onDidChange this)))
      end
  end.

Definition getColor (this : MinimapTokensColorTracker) (colorId : Z)
  : option RGBA8.t :=
  let colorId :=
    if (colorId <? 1) || (colorId >=? Z.of_nat (length (_colors this)))
    then ColorId.DefaultBackground
    else colorId in
  JS.array_get (_colors this) colorId.

Definition backgroundIsLight (this : MinimapTokensColorTracker) : bool :=
  _backgroundIsLight this.

(** ** The character renderer *)

Module Constants.
Definition START_CH_CODE : Z := 32.
Definition END_CH_CODE : Z := 126.
Definition CHAR_COUNT : Z := END_CH_CODE - START_CH_CODE + 1.
Definition SAMPLED_CHAR_HEIGHT : Z := 16.
Definition SAMPLED_CHAR_WIDTH : Z := 10.
Definition SAMPLED_HALF_CHAR_WIDTH : Z := SAMPLED_CHAR_WIDTH / 2.
Definition x2_CHAR_HEIGHT : Z := 4.
Definition x2_CHAR_WIDTH : Z := 2.
Definition x1_CHAR_HEIGHT : Z := 2.
Definition x1_CHAR_WIDTH : Z := 1.
Definition RGBA_CHANNELS_CNT : Z := 4.
Definition RGBA_SAMPLED_ROW_WIDTH : Z :=
  RGBA_CHANNELS_CNT * CHAR_COUNT * SAMPLED_CHAR_WIDTH.
End Constants.

(** An [ImageData]: [data] holds four bytes (R, G, B, A) per pixel, row by
    row. *)
Record ImageData : Type := mkImageData {
  width : Z;
  height : Z;
  data : JS.Uint8ClampedArray
}.

(** The buffer of an [ImageData] always has [4 * width * height] bytes. *)
Definition well_sized (target : ImageData) : Prop :=
  Z.of_nat (length (data target)) = 4 * width target * height target.

Record MinimapCharRenderer : Type := mkRenderer {
  charDataNormal : JS.Uint8ClampedArray;
  charDataLight : JS.Uint8ClampedArray;
  scale : Z
}.

(** The loop of [soften], with [n] iterations left: [result[i] = input[i] * ratio]. *)
Fixpoint soften_loop (n : nat) (i : Z) (input : JS.Uint8ClampedArray)
  (ratio : float) (result : JS.Uint8ClampedArray) : JS.Uint8ClampedArray :=
  match n with
  | O => result
  | S n' =>
      soften_loop n' (i + 1) input ratio
        (JS.typed_set result i (PrimFloat.mul (JS.typed_get input i) ratio))
  end.

Definition soften (input : JS.Uint8ClampedArray) (ratio : float)
  : JS.Uint8ClampedArray :=
  let result := replicate (length input) 0 in
  soften_loop (length input) 0 input ratio result.

Definition constructor (charData : JS.Uint8ClampedArray) (scale : Z)
  : MinimapCharRenderer :=
  mkRenderer (soften charData (PrimFloat.div 12 15))
             (soften charData (PrimFloat.div 50 60))
             scale.

(** JavaScript's [%] takes the sign of the dividend: it is [Z.rem].  The
    character code is an integer; the arithmetic of the source on it is exact
    while it stays within 2^53 in magnitude, which is where [Z] models it. *)
Definition _getChIndex (chCode : Z) : Z :=
  let chCode := chCode - Constants.START_CH_CODE in
  let chCode := if chCode <? 0 then chCode + Constants.CHAR_COUNT else chCode in
  Z.rem chCode Constants.CHAR_COUNT.

(** The state the two nested loops thread: the destination bytes, the running
    [column] (or [row]) index and [sourceOffset]. *)
Abbreviation loop_state := (JS.Uint8ClampedArray * Z * Z)%type.

Section RenderLoops.

Variable charData : JS.Uint8ClampedArray.
Variables backgroundR backgroundG backgroundB : float.
Variables deltaR deltaG deltaB : float.

(** The inner loop of [renderChar], [n] pixels left in the row. *)
Fixpoint renderChar_x (n : nat) (st : loop_state) : loop_state :=
  match n with
  | O => st
  | S n' =>
      let '(dest, column, sourceOffset) := st in
      let c := PrimFloat.div (JS.typed_get charData sourceOffset) 255 in
      let dest :=
        JS.typed_set dest column
          (PrimFloat.add backgroundR (PrimFloat.mul deltaR c)) in
      let dest :=
        JS.typed_set dest (column + 1)
          (PrimFloat.add backgroundG (PrimFloat.mul deltaG c)) in
      let dest :=
        JS.typed_set dest (column + 2)
          (PrimFloat.add backgroundB (PrimFloat.mul deltaB c)) in
      renderChar_x n' (dest, column + 4, sourceOffset + 1)
  end.

(** The outer loop of [renderChar], [m] rows left. *)
Fixpoint renderChar_y (charWidth : nat) (destWidth : Z) (m : nat)
  (st : loop_state) : loop_state :=
  match m with
  | O => st
  | S m' =>
      let '(dest, row, sourceOffset) := st in
      let '(dest, _, sourceOffset) :=
        renderChar_x charWidth (dest, row, sourceOffset) in
      renderChar_y charWidth destWidth m' (dest, row + destWidth, sourceOffset)
  end.

End RenderLoops.

Definition warning : string := "bad render request outside image data".

(** [renderChar] returns the target after the call and what it wrote to the
    console. *)
Definition renderChar (this : MinimapCharRenderer) (target : ImageData)
  (dx dy chCode : Z) (color backgroundColor : RGBA8.t) (useLighterFont : bool)
  : ImageData * list string :=
  let charWidth := Constants.x1_CHAR_WIDTH * scale this in
  let charHeight := Constants.x1_CHAR_HEIGHT * scale this in
  if (dx + charWidth >? width target) || (dy + charHeight >? height target)
  then (target, [warning])
  else
    let charData :=
      if useLighterFont then charDataLight this else charDataNormal this in
    let charIndex := _getChIndex chCode in
    let destWidth := width target * Constants.RGBA_CHANNELS_CNT in
    let backgroundR := JS.number_of_Z (RGBA8.r backgroundColor) in
    let backgroundG := JS.number_of_Z (RGBA8.g backgroundColor) in
    let backgroundB := JS.number_of_Z (RGBA8.b backgroundColor) in
    let deltaR := PrimFloat.sub (JS.number_of_Z (RGBA8.r color)) backgroundR in
    let deltaG := PrimFloat.sub (JS.number_of_Z (RGBA8.g color)) backgroundG in
    let deltaB := PrimFloat.sub (JS.number_of_Z (RGBA8.b color)) backgroundB in
    let dest := data target in
    let sourceOffset := charIndex * charWidth * charHeight in
    let row := dy * destWidth + dx * Constants.RGBA_CHANNELS_CNT in
    let '(dest, _, _) :=
      renderChar_y charData backgroundR backgroundG backgroundB
        deltaR deltaG deltaB (Z.to_nat charWidth) destWidth
        (Z.to_nat charHeight) (dest, row, sourceOffset) in
    (mkImageData (width target) (height target) dest, []).

Section BlockLoops.

Variables colorR colorG colorB : float.

(** The inner loop of [blockRenderChar], [n] pixels left in the row. *)
Fixpoint blockRenderChar_x (n : nat) (st : JS.Uint8ClampedArray * Z)
  : JS.Uint8ClampedArray * Z :=
  match n with
  | O => st
  | S n' =>
      let '(dest, column) := st in
      let dest := JS.typed_set dest column colorR in
      let dest := JS.typed_set dest (column + 1) colorG in
      let dest := JS.typed_set dest (column + 2) colorB in
      blockRenderChar_x n' (dest, column + 4)
  end.

(** The outer loop of [blockRenderChar], [m] rows left. *)
Fixpoint blockRenderChar_y (charWidth : nat) (destWidth : Z) (m : nat)
  (st : JS.Uint8ClampedArray * Z) : JS.Uint8ClampedArray * Z :=
  match m with
  | O => st
  | S m' =>
      let '(dest, row) := st in
      let '(dest, _) := blockRenderChar_x charWidth (dest, row) in
      blockRenderChar_y charWidth destWidth m' (dest, row + destWidth)
  end.

End BlockLoops.

Definition blockRenderChar (this : MinimapCharRenderer) (target : ImageData)
  (dx dy : Z) (color backgroundColor : RGBA8.t) (useLighterFont : bool)
  : ImageData * list string :=
  let charWidth := Constants.x1_CHAR_WIDTH * scale this in
  let charHeight := Constants.x1_CHAR_HEIGHT * scale this in
  if (dx + charWidth >? width target) || (dy + charHeight >? height target)
  then (target, [warning])
  else
    let destWidth := width target * Constants.RGBA_CHANNELS_CNT in
    let c := 0.5%float in
    let backgroundR := JS.number_of_Z (RGBA8.r backgroundColor) in
    let backgroundG := JS.number_of_Z (RGBA8.g backgroundColor) in
    let backgroundB := JS.number_of_Z (RGBA8.b backgroundColor) in
    let deltaR := PrimFloat.sub (JS.number_of_Z (RGBA8.r color)) backgroundR in
    let deltaG := PrimFloat.sub (JS.number_of_Z (RGBA8.g color)) backgroundG in
    let deltaB := PrimFloat.sub (JS.number_of_Z (RGBA8.b color)) backgroundB in
    let colorR := PrimFloat.add backgroundR (PrimFloat.mul deltaR c) in
    let colorG := PrimFloat.add backgroundG (PrimFloat.mul deltaG c) in
    let colorB := PrimFloat.add backgroundB (PrimFloat.mul deltaB c) in
    let dest := data target in
    let row := dy * destWidth + dx * Constants.RGBA_CHANNELS_CNT in
    let '(dest, _) :=
      blockRenderChar_y colorR colorG colorB (Z.to_nat charWidth) destWidth
        (Z.to_nat charHeight) (dest, row) in
    (mkImageData (width target) (height target) dest, []).


(** * Definitions used to state the properties *)

(** The palette a rebuild from a present colour map installs: the sentinel,
    then the converted entries 1, 2, ... of the map. *)
Definition palette_of (colorMap : list Color.t) : list (option RGBA8.t) :=
  Some RGBA8.Empty :: map (fun c => Some (toRGBA8 c)) (drop 1 colorMap).

(** A tracker before its first rebuild: nothing assigned, nothing fired. *)
Definition fresh_tracker : MinimapTokensColorTracker := mkTracker [] false [].

(** A three-entry colour map: black on a white background. *)
Definition sample_colorMap : list Color.t :=
  [ Color.mk (Color.mkRGBA 0 0 0 0) 0;
    Color.mk (Color.mkRGBA 0 0 0 1) 0;
    Color.mk (Color.mkRGBA 255 255 255 1) 1 ].

(** A byte written into a buffer: index and value. *)
Definition write : Type := (Z * Z)%type.

(** The writes of a list, performed in order. *)
Definition apply_writes (ws : list write) (dest : JS.Uint8ClampedArray)
  : JS.Uint8ClampedArray :=
  fold_left (fun d w => JS.store d (fst w) (snd w)) ws dest.

(** The value of the last write of [ws] at index [i], if there is one. *)
Fixpoint last_write (ws : list write) (i : nat) : option Z :=
  match ws with
  | [] => None
  | w :: ws' =>
      match last_write ws' i with
      | Some v => Some v
      | None => if fst w =? Z.of_nat i then Some (snd w) else None
      end
  end.

Section CellWrites.

(** The byte stored in channel 0, 1 or 2 of the pixel whose sample is read at
    a source offset. *)
Variable px : Z -> Z -> Z.

Definition pixel_writes (column sourceOffset : Z) : list write :=
  [ (column, px sourceOffset 0);
    (column + 1, px sourceOffset 1);
    (column + 2, px sourceOffset 2) ].

Fixpoint row_writes (n : nat) (column sourceOffset : Z) : list write :=
  match n with
  | O => []
  | S n' =>
      pixel_writes column sourceOffset
      ++ row_writes n' (column + 4) (sourceOffset + 1)
  end.

Fixpoint cell_writes (charWidth : nat) (destWidth : Z) (m : nat)
  (row sourceOffset : Z) : list write :=
  match m with
  | O => []
  | S m' =>
      row_writes charWidth row sourceOffset
      ++ cell_writes charWidth destWidth m' (row + destWidth)
           (sourceOffset + Z.of_nat charWidth)
  end.

End CellWrites.

(** The byte [renderChar] stores in a channel: the background channel plus the
    difference to the foreground channel times the sample over 255, converted
    as a clamped byte array converts it. *)
Definition blend_byte (background color : Z) (sample : float) : Z :=
  let background := JS.number_of_Z background in
  let delta := PrimFloat.sub (JS.number_of_Z color) background in
  let c := PrimFloat.div sample 255 in
  JS.ToUint8Clamp (PrimFloat.add background (PrimFloat.mul delta c)).

(** The byte [blockRenderChar] stores in a channel. *)
Definition block_byte (background color : Z) : Z :=
  let background := JS.number_of_Z background in
  let delta := PrimFloat.sub (JS.number_of_Z color) background in
  JS.ToUint8Clamp (PrimFloat.add background (PrimFloat.mul delta 0.5)).

(** Channel 0, 1, 2 of a colour is r, g, b. *)
Definition channel (c : RGBA8.t) (k : Z) : Z :=
  if k =? 0 then RGBA8.r c else if k =? 1 then RGBA8.g c else RGBA8.b c.

(** The scaled cell of a renderer. *)
Definition charWidth (this : MinimapCharRenderer) : Z :=
  Constants.x1_CHAR_WIDTH * scale this.
Definition charHeight (this : MinimapCharRenderer) : Z :=
  Constants.x1_CHAR_HEIGHT * scale this.

(** The atlas [renderChar] samples. *)
Definition atlas (this : MinimapCharRenderer) (useLighterFont : bool)
  : JS.Uint8ClampedArray :=
  if useLighterFont then charDataLight this else charDataNormal this.

(** The bytes the loops of [renderChar] store for the pixel whose sample is
    read at [sourceOffset], by channel. *)
Definition loop_px (charData : JS.Uint8ClampedArray)
  (backgroundR backgroundG backgroundB deltaR deltaG deltaB : float)
  (sourceOffset k : Z) : Z :=
  let c := PrimFloat.div (JS.typed_get charData sourceOffset) 255 in
  if k =? 0 then JS.ToUint8Clamp (PrimFloat.add backgroundR (PrimFloat.mul deltaR c))
  else if k =? 1 then JS.ToUint8Clamp (PrimFloat.add backgroundG (PrimFloat.mul deltaG c))
  else JS.ToUint8Clamp (PrimFloat.add backgroundB (PrimFloat.mul deltaB c)).

(** The same bytes, from the colours of a [renderChar] call. *)
Definition render_px (charData : JS.Uint8ClampedArray)
  (color backgroundColor : RGBA8.t) (sourceOffset k : Z) : Z :=
  blend_byte (channel backgroundColor k) (channel color k)
             (JS.typed_get charData sourceOffset).

(** The bytes [blockRenderChar] stores for every pixel, by channel. *)
Definition block_px (color backgroundColor : RGBA8.t) (sourceOffset k : Z) : Z :=
  block_byte (channel backgroundColor k) (channel color k).

(** The writes of a [renderChar] call that passes the bounds check. *)
Definition renderChar_writes (this : MinimapCharRenderer) (target : ImageData)
  (dx dy chCode : Z) (color backgroundColor : RGBA8.t) (useLighterFont : bool)
  : list write :=
  cell_writes (render_px (atlas this useLighterFont) color backgroundColor)
    (Z.to_nat (charWidth this)) (width target * 4) (Z.to_nat (charHeight this))
    (dy * (width target * 4) + dx * 4)
    (_getChIndex chCode * charWidth this * charHeight this).

(** The writes of a [blockRenderChar] call that passes the bounds check. *)
Definition blockRenderChar_writes (this : MinimapCharRenderer)
  (target : ImageData) (dx dy : Z) (color backgroundColor : RGBA8.t)
  : list write :=
  cell_writes (block_px color backgroundColor)
    (Z.to_nat (charWidth this)) (width target * 4) (Z.to_nat (charHeight this))
    (dy * (width target * 4) + dx * 4) 0.

(** The bounds check of both render operations. *)
Definition rejected (this : MinimapCharRenderer) (target : ImageData)
  (dx dy : Z) : bool :=
  (dx + charWidth this >? width target) || (dy + charHeight this >? height target).

(** The bytes the loops of [blockRenderChar] store for every pixel. *)
Definition block_loop_px (colorR colorG colorB : float) (sourceOffset k : Z) : Z :=
  if k =? 0 then JS.ToUint8Clamp colorR
  else if k =? 1 then JS.ToUint8Clamp colorG
  else JS.ToUint8Clamp colorB.

(** Byte [i] of a target belongs to the scaled cell at [(dx, dy)]: the pixel
    it is part of lies in the columns [dx .. dx + charWidth - 1] and the rows
    [dy .. dy + charHeight - 1]. *)
Definition in_footprint (this : MinimapCharRenderer) (target : ImageData)
  (dx dy : Z) (i : nat) : Prop :=
  let pixel := Z.of_nat i / 4 in
  let x := pixel mod width target in
  let y := pixel / width target in
  (dx <= x < dx + charWidth this) /\ (dy <= y < dy + charHeight this).

(** A target of the given size, every byte 0. *)
Definition blank_target (w h : Z) : ImageData :=
  mkImageData w h (replicate (Z.to_nat (4 * w * h)) 0).

(** A source atlas for scale 1 (95 glyphs of 1 x 2 samples), every sample at
    full intensity, and the renderer built from it. *)
Definition full_atlas : JS.Uint8ClampedArray := replicate 190 255.
Definition sample_renderer : MinimapCharRenderer := constructor full_atlas 1.

Definition white : RGBA8.t := RGBA8.new 255 255 255 255.
Definition black : RGBA8.t := RGBA8.new 0 0 0 255.

(** The byte [soften] stores for a source byte. *)
Definition soften_byte (ratio : float) (b : Z) : Z :=
  JS.ToUint8Clamp (PrimFloat.mul (JS.number_of_Z b) ratio).

(** The writes of the loop of [soften]. *)
Fixpoint soften_writes (n : nat) (i : Z) (input : JS.Uint8ClampedArray)
  (ratio : float) : list write :=
  match n with
  | O => []
  | S n' =>
      (i, JS.ToUint8Clamp (PrimFloat.mul (JS.typed_get input i) ratio))
      :: soften_writes n' (i + 1) input ratio
  end.

(** The integers 0 .. n-1, for checks by enumeration. *)
Definition for_all_below (n : nat) (P : Z -> bool) : bool :=
  forallb P (map Z.of_nat (seq 0 n)).

Definition for_all_bytes (P : Z -> bool) : bool := for_all_below 256 P.

(** Half of [s], a half rounded to the even neighbour; the mid-point of two
    bytes is half their sum. *)
Definition half_even (s : Z) : Z :=
  if Z.even s then s / 2
  else if Z.even (s / 2) then s / 2 else s / 2 + 1.

Definition midpoint (background color : Z) : Z := half_even (background + color).

(** The ratio [soften] is called with for each of the two atlases, and the
    most either atlas can hold. *)
Definition ratio_of (useLighterFont : bool) : float :=
  if useLighterFont then PrimFloat.div 50 60 else PrimFloat.div 12 15.
Definition max_softened (useLighterFont : bool) : Z :=
  if useLighterFont then 212 else 204.

(** The largest integer from which JavaScript numbers still count one by one
    ([Number.MAX_SAFE_INTEGER], 2^53 - 1): up to it, integer arithmetic on
    numbers is exact, so [Z] models it. *)
Definition MAX_SAFE_INTEGER : Z := 9007199254740991.

(** ** The rest of the tracker: construction, the registry listener and the
    shared instance *)

(** [new MinimapTokensColorTracker()], given what
    [TokenizationRegistry.getColorMap()] returns at that moment: the fields
    are unassigned, [_updateColorMap] runs, and then the listener below is
    registered.  When the rebuild throws, so does the constructor. *)
Definition MinimapTokensColorTracker_new (colorMap : option (list Color.t))
  : completion * MinimapTokensColorTracker :=
  _updateColorMap colorMap fresh_tracker.

(** The listener the constructor registers with
    [TokenizationRegistry.onDidChange]: [e => { if (e.changedColorMap)
    this._updateColorMap(); }].  [colorMap] is what the registry returns
    when the listener runs. *)
Definition onTokenizationRegistryChange (changedColorMap : bool)
  (colorMap : option (list Color.t)) (this : MinimapTokensColorTracker)
  : completion * MinimapTokensColorTracker :=
  if changedColorMap then _updateColorMap colorMap this else (Normal, this).

(** [getInstance], with the static field [_INSTANCE] passed in and out
    ([None] for [null]; an instance is truthy). *)
Definition getInstance (colorMap : option (list Color.t))
  (_INSTANCE : option MinimapTokensColorTracker)
  : completion * option MinimapTokensColorTracker :=
  match _INSTANCE with
  | Some this => (Normal, Some this)
  | None =>
      match MinimapTokensColorTracker_new colorMap with
      | (Normal, this) => (Normal, Some this)
      | (TypeError, _) => (TypeError, None)
      end
  end.

(** A notification of the registry: the [changedColorMap] flag of the event
    and the colour map the registry holds when it is delivered. *)
Definition notification : Type := (bool * option (list Color.t))%type.

(** The registry delivering notifications one after the other to the
    listener of a tracker.  A listener that throws does not stop later
    deliveries. *)
Fixpoint deliver (ns : list notification) (this : MinimapTokensColorTracker)
  : MinimapTokensColorTracker :=
  match ns with
  | [] => this
  | n :: ns' =>
      deliver ns' (snd (onTokenizationRegistryChange (fst n) (snd n) this))
  end.

(** Modelled from the spec: the upstream colour-map source
    ([TokenizationRegistry], outside the sources at hand) holds the current
    colour map and notifies its listeners when the map is set (with
    [changedColorMap]) and on other changes (without it, the map staying as
    it is).  A step of the program around the tracker is one of these two,
    or a call of [getInstance]. *)
Inductive registry_step : Type :=
| SetColorMap (colorMap : option (list Color.t))
| OtherChange
| GetInstance.

(** The registry's current colour map and the static field [_INSTANCE]. *)
Record World : Type := mkWorld {
  registry_colorMap : option (list Color.t);
  _INSTANCE : option MinimapTokensColorTracker
}.

(** One step: a change of the registry reaches the listener of the instance,
    if there is one; [getInstance] reads the registry's current map. *)
Definition step (s : registry_step) (w : World) : World :=
  match s with
  | SetColorMap colorMap =>
      mkWorld colorMap
        (option_map
           (fun this => snd (onTokenizationRegistryChange true colorMap this))
           (_INSTANCE w))
  | OtherChange =>
      mkWorld (registry_colorMap w)
        (option_map
           (fun this =>
              snd (onTokenizationRegistryChange false (registry_colorMap w) this))
           (_INSTANCE w))
  | GetInstance =>
      mkWorld (registry_colorMap w)
        (snd (getInstance (registry_colorMap w) (_INSTANCE w)))
  end.

Fixpoint run (steps : list registry_step) (w : World) : World :=
  match steps with
  | [] => w
  | s :: rest => run rest (step s w)
  end.

(** The palette a rebuild installs for what the registry holds. *)
Definition current_palette (colorMap : option (list Color.t))
  : list (option RGBA8.t) :=
  match colorMap with
  | None => [Some RGBA8.Empty]
  | Some colorMap => palette_of colorMap
  end.

(** A notification that makes the listener fire the tracker's change event:
    flagged, with a colour map that has an entry for the default
    background. *)
Definition fires (n : notification) : bool :=
  fst n && match snd n with
           | None => false
           | Some colorMap =>
               (Z.to_nat ColorId.DefaultBackground <? length colorMap)%nat
           end.

(** What a listener of the change event can rely on: the palette it reads has
    no holes and reaches past the default background. *)
Definition usable (palette : list (option RGBA8.t)) : Prop :=
  Forall is_Some palette /\
  ColorId.DefaultBackground < Z.of_nat (length palette).

(** A colour map without an entry for the default background. *)
Definition short_colorMap : list Color.t :=
  [ Color.mk (Color.mkRGBA 0 0 0 0) 0;
    Color.mk (Color.mkRGBA 9 9 9 1) 0 ].

(** ** Both render operations as one: the bounds check, then the writes of
    the cell *)
Definition render_cell (px : Z -> Z -> Z) (sourceOffset : Z)
  (this : MinimapCharRenderer) (target : ImageData) (dx dy : Z)
  : ImageData * list string :=
  if rejected this target dx dy then (target, [warning])
  else (mkImageData (width target) (height target)
          (apply_writes
             (cell_writes px (Z.to_nat (charWidth this)) (width target * 4)
                (Z.to_nat (charHeight this))
                (dy * (width target * 4) + dx * 4) sourceOffset)
             (data target)),
        []).

(** Two cells of a target that share no pixel: one lies wholly to the left
    of, or wholly above, the other. *)
Definition apart (this : MinimapCharRenderer) (dx1 dy1 dx2 dy2 : Z) : Prop :=
  dx1 + charWidth this <= dx2 \/ dx2 + charWidth this <= dx1 \/
  dy1 + charHeight this <= dy2 \/ dy2 + charHeight this <= dy1.

(** The offset of the sample [renderChar] reads for the pixel at [(x, y)] of
    the cell. *)
Definition sample_offset (this : MinimapCharRenderer) (chCode x y : Z) : Z :=
  _getChIndex chCode * charWidth this * charHeight this
  + y * charWidth this + x.

(** The byte index of channel [k] of the pixel at [(x, y)] of the cell at
    [(dx, dy)]. *)
Definition byte_index (target : ImageData) (dx dy x y k : Z) : nat :=
  Z.to_nat (4 * ((dy + y) * width target + (dx + x)) + k).

(** A renderer built from no atlas data at all. *)
Definition empty_renderer : MinimapCharRenderer := constructor [] 1.

(** The softened bytes of the two atlases. *)
Definition soften_normal (b : Z) : Z := soften_byte (ratio_of false) b.
Definition soften_light (b : Z) : Z := soften_byte (ratio_of true) b.

(** A renderer with the first glyph only (scale 1: two samples). *)
Definition tiny_renderer : MinimapCharRenderer := constructor [128; 0] 1.

(** A renderer given by its two atlases directly (first glyph only, scale
    1), with a sample of each end of the intensity range. *)
Definition endpoint_renderer : MinimapCharRenderer := mkRenderer [255; 0] [255; 0] 1.


(** * The definitions on concrete inputs *)

Example ToUint8Clamp_ties :
  map JS.ToUint8Clamp [0.25; 0.5; 1.5; 2.5; 254.5; 300; -3; PrimFloat.nan]%float
  = [0; 0; 2; 2; 254; 255; 0; 0].
Proof. vm_compute. reflexivity. Qed.

Example Math_round_halves :
  map (fun x => JS.ToUint8Clamp (JS.Math_round x)) [0.25; 0.5; 1.5; 2.5; 127.5]%float
  = [0; 1; 2; 3; 128].
Proof. vm_compute. reflexivity. Qed.

Example toRGBA8_half_alpha :
  toRGBA8 (Color.mk (Color.mkRGBA 10 20 300 0.5) 0) = RGBA8.mk 10 20 255 128.
Proof. vm_compute. reflexivity. Qed.

Example soften_sample :
  soften [0; 5; 128; 255] (PrimFloat.div 12 15) = [0; 4; 102; 204] /\
  soften [0; 5; 128; 255] (PrimFloat.div 50 60) = [0; 4; 107; 212].
Proof. split; vm_compute; reflexivity. Qed.

Example _getChIndex_sample :
  map _getChIndex [32; 65; 126; 127; 31; 0; 8364] = [0; 33; 94; 0; 94; 63; 67].
Proof. vm_compute. reflexivity. Qed.

(** The specification's example: scale 1, black background, white
    foreground, a source sample of 128.  The sample is softened to 102
    first, which is what the pixel gets; the alpha byte and the bytes of the
    other row's sample (0) stay as they were. *)
Example renderChar_sample :
  let this := constructor [128; 0] 1 in
  let target := mkImageData 1 2 [7; 7; 7; 7; 7; 7; 7; 7] in
  renderChar this target 0 0 32 (RGBA8.new 255 255 255 255) (RGBA8.new 0 0 0 255)
    false
  = (mkImageData 1 2 [102; 102; 102; 7; 0; 0; 0; 7], []).
Proof. vm_compute. reflexivity. Qed.

Example blockRenderChar_sample :
  let this := constructor [128; 0] 1 in
  let target := mkImageData 1 2 [7; 7; 7; 7; 7; 7; 7; 7] in
  blockRenderChar this target 0 0 (RGBA8.new 255 255 255 255)
    (RGBA8.new 0 4 1 255) true
  = (mkImageData 1 2 [128; 130; 128; 7; 128; 130; 128; 7], []).
Proof. vm_compute. reflexivity. Qed.

Example getColor_sample :
  let this := snd (_updateColorMap (Some sample_colorMap) fresh_tracker) in
  map (getColor this) [-1; 0; 1; 2; 3] =
  [Some (RGBA8.mk 255 255 255 255); Some (RGBA8.mk 255 255 255 255);
   Some (RGBA8.mk 0 0 0 255); Some (RGBA8.mk 255 255 255 255);
   Some (RGBA8.mk 255 255 255 255)].
Proof. vm_compute. reflexivity. Qed.
(** * Properties *)

(** ** The colour tracker *)

Section Tracker.

Implicit Types (this : MinimapTokensColorTracker) (colorMap : list Color.t).

Lemma array_set_at_end {A} (arr : list (option A)) (v : A) :
  JS.array_set arr (length arr) v = arr ++ [Some v].
Proof.
  unfold JS.array_set.
  destruct (Nat.ltb_spec (length arr) (length arr)) as [Hlt | _]; [lia |].
  now rewrite Nat.sub_diag.
Qed.

(** The loop appends the converted entries one by one. *)
Lemma _updateColorMap_loop_spec (n : nat) :
  forall (colorId : nat) colorMap (colors : list (option RGBA8.t)),
    length colors = colorId ->
    (colorId + n <= length colorMap)%nat ->
    _updateColorMap_loop n colorId colorMap colors =
    colors ++ map (fun c => Some (toRGBA8 c)) (take n (drop colorId colorMap)).
Proof.
  induction n as [| n IH]; intros colorId colorMap colors Hlen Hn; simpl.
  - now rewrite app_nil_r.
  - destruct (lookup_lt_is_Some_2 colorMap colorId ltac:(lia)) as [c Hc].
    rewrite Hc, (drop_S _ _ _ Hc). simpl.
    rewrite <- Hlen at 2. rewrite array_set_at_end.
    rewrite IH; [| rewrite length_app; simpl; lia | lia].
    now rewrite <- app_assoc.
Qed.

Lemma _updateColorMap_palette colorMap :
  _updateColorMap_loop (length colorMap - 1) 1 colorMap [Some RGBA8.Empty] =
  palette_of colorMap.
Proof.
  destruct colorMap as [| c0 colorMap]; [reflexivity |].
  rewrite _updateColorMap_loop_spec; simpl; [| reflexivity | lia].
  unfold palette_of. simpl. rewrite Nat.sub_0_r, drop_0.
  now rewrite firstn_all.
Qed.

(** What [getColor] does with an identifier outside the palette. *)
Lemma getColor_substitutes this (colorId : Z) :
  colorId < 1 \/ Z.of_nat (length (_colors this)) <= colorId ->
  getColor this colorId = JS.array_get (_colors this) ColorId.DefaultBackground.
Proof.
  intros H. unfold getColor.
  destruct (Z.ltb_spec colorId 1); simpl; [reflexivity |].
  destruct (Z.geb_spec colorId (Z.of_nat (length (_colors this)))); [reflexivity | lia].
Qed.

(** On a palette without holes that reaches past the default background,
    every lookup gives a colour. *)
Lemma getColor_defined this (colorId : Z) :
  Forall is_Some (_colors this) ->
  ColorId.DefaultBackground < Z.of_nat (length (_colors this)) ->
  is_Some (getColor this colorId).
Proof.
  intros Hdense Hlen.
  assert (Hin : forall i : Z, 0 <= i < Z.of_nat (length (_colors this)) ->
                         is_Some (JS.array_get (_colors this) i)).
  { intros i Hi. unfold JS.array_get.
    destruct (Z.ltb_spec i 0); [lia |].
    destruct (lookup_lt_is_Some_2 (_colors this) (Z.to_nat i) ltac:(lia)) as [s Hs].
    rewrite Hs. simpl.
    apply (proj1 (Forall_lookup _ _) Hdense _ _ Hs). }
  unfold getColor.
  destruct (Z.ltb_spec colorId 1); simpl.
  - apply Hin. unfold ColorId.DefaultBackground in *. lia.
  - destruct (Z.geb_spec colorId (Z.of_nat (length (_colors this)))).
    + apply Hin. unfold ColorId.DefaultBackground in *. lia.
    + apply Hin. lia.
Qed.

Lemma palette_of_dense colorMap : Forall is_Some (palette_of colorMap).
Proof.
  unfold palette_of. constructor; [by eexists |].
  apply Forall_map, Forall_forall. intros c _. by eexists.
Qed.

Lemma palette_of_length colorMap :
  length (palette_of colorMap) = Nat.max 1 (length colorMap).
Proof.
  unfold palette_of. simpl. rewrite length_map, length_drop. lia.
Qed.

End Tracker.


(** After a rebuild from a present colour map that has an entry for the
    default background, every lookup gives a colour. *)
Lemma getColor_defined_after_rebuild (colorMap : list Color.t)
  (this : MinimapTokensColorTracker) (colorId : Z) :
  (2 < length colorMap)%nat ->
  is_Some (getColor (snd (_updateColorMap (Some colorMap) this)) colorId).
Proof.
  intros Hlen.
  destruct (lookup_lt_is_Some_2 colorMap 2 Hlen) as [background Hbg].
  unfold _updateColorMap. change (Z.to_nat ColorId.DefaultBackground) with 2%nat.
  rewrite Hbg, _updateColorMap_palette. simpl.
  apply getColor_defined; simpl.
  - apply palette_of_dense.
  - rewrite length_map, length_drop. unfold ColorId.DefaultBackground. lia.
Qed.

(** C1 (the code at the failing input).  After a rebuild from an absent colour
    map the palette holds the sentinel alone, so [getColor] substitutes the
    default-background identifier 2 for every identifier, reads the palette
    past its end and returns [undefined]: no identifier is resolved to a
    colour. *)
Theorem getColor_undefined_after_absent_rebuild
  (this : MinimapTokensColorTracker) (colorId : Z) :
  getColor (snd (_updateColorMap None this)) colorId = None.
Proof.
  unfold getColor. simpl.
  destruct (Z.ltb_spec colorId 1); simpl; [reflexivity |].
  destruct (Z.geb_spec colorId (Z.of_nat 1)); [reflexivity | lia].
Qed.

(** C2, as the spec states it, fails twice: an empty colour map is an array,
    hence truthy, and the rebuild ends in a TypeError at the luminance of
    its missing entry 2; and after the rebuild from an absent map
    [getColor] returns [undefined], not the sentinel. *)
Lemma rebuild_from_empty_map_throws :
  fst (_updateColorMap (Some []) fresh_tracker) = TypeError /\
  getColor (snd (_updateColorMap None fresh_tracker)) 1 <> Some RGBA8.Empty.
Proof. split; [reflexivity | discriminate]. Qed.

(** C2 (amended).  A rebuild from an absent colour map completes normally,
    whatever the tracker held before; the palette becomes the single-entry
    palette holding the sentinel (the all-zero colour), which index 0
    resolves to, and [backgroundIsLight] becomes true. *)
Theorem rebuild_from_absent_map (this : MinimapTokensColorTracker) :
  let result := _updateColorMap None this in
  fst result = Normal /\
  _colors (snd result) = [Some RGBA8.Empty] /\
  RGBA8.Empty = RGBA8.mk 0 0 0 0 /\
  JS.array_get (_colors (snd result)) 0 = Some RGBA8.Empty /\
  backgroundIsLight (snd result) = true.
Proof. repeat split. Qed.

(** C3, as the spec states it, fails: the rebuild that resets the palette
    because the colour map is absent returns before the event is fired. *)
Lemma rebuild_from_absent_map_fires_nothing :
  _colors (snd (_updateColorMap None fresh_tracker)) <> _colors fresh_tracker /\
  length (_onDidChange (snd (_updateColorMap None fresh_tracker))) <>
  S (length (_onDidChange fresh_tracker)).
Proof. split; discriminate. Qed.

(** C3 (amended).  A rebuild from a present colour map with an entry for the
    default background fires the change event exactly once, and the listeners
    then read the new palette and the new lightness flag, which are the ones
    the tracker holds when the rebuild returns.  A rebuild from an absent
    colour map fires nothing. *)
Theorem rebuild_fires_once_after_update (colorMap : list Color.t)
  (background : Color.t) (this : MinimapTokensColorTracker) :
  colorMap !! Z.to_nat ColorId.DefaultBackground = Some background ->
  let result := _updateColorMap (Some colorMap) this in
  let light := PrimFloat.leb 0.5 (Color.getRelativeLuminance background) in
  (fst result = Normal /\
   _colors (snd result) = palette_of colorMap /\
   backgroundIsLight (snd result) = light /\
   _onDidChange (snd result) = _onDidChange this ++ [(palette_of colorMap, light)]) /\
  _onDidChange (snd (_updateColorMap None this)) = _onDidChange this.
Proof.
  intros Hbg. simpl. unfold _updateColorMap.
  rewrite Hbg, _updateColorMap_palette. simpl. repeat split.
Qed.

Lemma rebuild_fires_once_after_update_witness :
  let background := Color.mk (Color.mkRGBA 255 255 255 1) 1 in
  sample_colorMap !! Z.to_nat ColorId.DefaultBackground = Some background /\
  let result := _updateColorMap (Some sample_colorMap) fresh_tracker in
  (fst result = Normal /\
   _colors (snd result) = palette_of sample_colorMap /\
   backgroundIsLight (snd result) = true /\
   _onDidChange (snd result) = [(palette_of sample_colorMap, true)]) /\
  _onDidChange (snd (_updateColorMap None fresh_tracker)) = [].
Proof.
  split; [reflexivity |].
  exact (rebuild_fires_once_after_update sample_colorMap
           (Color.mk (Color.mkRGBA 255 255 255 1) 1) fresh_tracker eq_refl).
Defined.

(** ** Glyph selection *)

Lemma _getChIndex_unfold (chCode : Z) :
  _getChIndex chCode =
  Z.rem (if chCode - 32 <? 0 then chCode - 32 + 95 else chCode - 32) 95.
Proof. reflexivity. Qed.

Lemma _getChIndex_mod (chCode : Z) :
  -63 <= chCode -> _getChIndex chCode = (chCode - 32) mod 95.
Proof.
  intros Hlow. rewrite _getChIndex_unfold.
  destruct (Z.ltb_spec (chCode - 32) 0) as [Hneg | Hpos].
  - rewrite Z.rem_small by lia.
    apply Z.mod_unique with (q := -1); lia.
  - apply Z.rem_mod_nonneg; lia.
Qed.

(** [renderChar] reads the character code through [_getChIndex] only. *)
Lemma renderChar_same_index (this : MinimapCharRenderer) (target : ImageData)
  (dx dy chCode chCode' : Z) (color backgroundColor : RGBA8.t)
  (useLighterFont : bool) :
  _getChIndex chCode = _getChIndex chCode' ->
  renderChar this target dx dy chCode color backgroundColor useLighterFont =
  renderChar this target dx dy chCode' color backgroundColor useLighterFont.
Proof. intros Heq. unfold renderChar. now rewrite Heq. Qed.

(** C4, as the spec states it, fails below code -63: the source adds the
    range size once only and JavaScript's remainder keeps the sign of the
    dividend, so code -64 selects index -1, which is no glyph, where the
    mathematical modulo gives 94. *)
Lemma _getChIndex_negative_index :
  _getChIndex (-64) = -1 /\ (-64 - Constants.START_CH_CODE) mod Constants.CHAR_COUNT = 94.
Proof. split; reflexivity. Qed.

(** C4 (amended).  For every character code from -63 up to 2^53 - 1, the
    integers JavaScript's subtraction handles exactly (every UTF-16 code unit
    is one), [renderChar] selects the glyph at index [(chCode - 32) mod 95],
    a valid index in 0..94, so it renders the code as it renders the
    printable code [32 + (chCode - 32) mod 95]; code 31 selects the glyph of
    code 126, and code 127 that of code 32. *)
Theorem _getChIndex_wraps (chCode : Z) :
  Constants.START_CH_CODE - Constants.CHAR_COUNT <= chCode <= MAX_SAFE_INTEGER ->
  _getChIndex chCode = (chCode - Constants.START_CH_CODE) mod Constants.CHAR_COUNT /\
  0 <= _getChIndex chCode <= 94 /\
  _getChIndex 31 = _getChIndex 126 /\
  _getChIndex 127 = _getChIndex 32 /\
  forall this target dx dy color backgroundColor useLighterFont,
    renderChar this target dx dy chCode color backgroundColor useLighterFont =
    renderChar this target dx dy
      (Constants.START_CH_CODE + (chCode - Constants.START_CH_CODE) mod Constants.CHAR_COUNT)
      color backgroundColor useLighterFont.
Proof.
  change Constants.START_CH_CODE with 32. change Constants.CHAR_COUNT with 95.
  intros [Hlow _].
  assert (Hmod := Z.mod_pos_bound (chCode - 32) 95 ltac:(lia)).
  rewrite _getChIndex_mod by lia.
  repeat split; try lia.
  intros. apply renderChar_same_index.
  rewrite !_getChIndex_mod by lia.
  replace (32 + (chCode - 32) mod 95 - 32) with ((chCode - 32) mod 95) by lia.
  now rewrite Z.mod_mod by lia.
Qed.

Lemma _getChIndex_wraps_witness :
  Constants.START_CH_CODE - Constants.CHAR_COUNT <= 8364 <= MAX_SAFE_INTEGER /\
  _getChIndex 8364 = (8364 - Constants.START_CH_CODE) mod Constants.CHAR_COUNT /\
  0 <= _getChIndex 8364 <= 94.
Proof.
  assert (Hrange : Constants.START_CH_CODE - Constants.CHAR_COUNT
                   <= 8364 <= MAX_SAFE_INTEGER)
    by (vm_compute; split; discriminate).
  split; [exact Hrange |].
  destruct (_getChIndex_wraps 8364 Hrange) as (Hmod & Hindex & _).
  split; [exact Hmod | exact Hindex].
Defined.

(** ** Bounds rejection *)

(** C5.  When [dx] plus the scaled cell width exceeds the target's width, or
    [dy] plus the scaled cell height exceeds its height, [renderChar] and
    [blockRenderChar] return normally, having written the diagnostic to the
    console, and the target is the one they were given: no byte changed. *)
Theorem render_rejects_out_of_bounds (this : MinimapCharRenderer)
  (target : ImageData) (dx dy chCode : Z) (color backgroundColor : RGBA8.t)
  (useLighterFont : bool) :
  dx + Constants.x1_CHAR_WIDTH * scale this > width target \/
  dy + Constants.x1_CHAR_HEIGHT * scale this > height target ->
  renderChar this target dx dy chCode color backgroundColor useLighterFont =
    (target, [warning]) /\
  blockRenderChar this target dx dy color backgroundColor useLighterFont =
    (target, [warning]).
Proof.
  intros Hout. unfold renderChar, blockRenderChar.
  assert (Hcheck :
    (dx + Constants.x1_CHAR_WIDTH * scale this >? width target)
    || (dy + Constants.x1_CHAR_HEIGHT * scale this >? height target) = true).
  { apply orb_true_iff. rewrite !Z.gtb_gt. lia. }
  now rewrite Hcheck.
Qed.

Lemma render_rejects_out_of_bounds_witness :
  let target := blank_target 1 2 in
  (1 + Constants.x1_CHAR_WIDTH * scale sample_renderer > width target \/
   0 + Constants.x1_CHAR_HEIGHT * scale sample_renderer > height target) /\
  renderChar sample_renderer target 1 0 65 white black false =
    (target, [warning]) /\
  blockRenderChar sample_renderer target 1 0 white black false =
    (target, [warning]).
Proof.
  cbv zeta.
  assert (Hout :
    1 + Constants.x1_CHAR_WIDTH * scale sample_renderer > width (blank_target 1 2) \/
    0 + Constants.x1_CHAR_HEIGHT * scale sample_renderer > height (blank_target 1 2))
    by (left; vm_compute; reflexivity).
  split; [exact Hout |].
  exact (render_rejects_out_of_bounds sample_renderer (blank_target 1 2) 1 0 65
           white black false Hout).
Defined.

(** ** Buffers as the result of a list of writes *)

Section ApplyWrites.

Implicit Types (ws : list write) (dest : JS.Uint8ClampedArray) (i : nat).

Lemma apply_writes_app ws1 ws2 dest :
  apply_writes (ws1 ++ ws2) dest = apply_writes ws2 (apply_writes ws1 dest).
Proof. apply fold_left_app. Qed.

Lemma store_lookup dest (j v : Z) i :
  JS.store dest j v !! i =
  match dest !! i with
  | None => None
  | Some old => Some (if j =? Z.of_nat i then v else old)
  end.
Proof.
  unfold JS.store.
  destruct (Z.ltb_spec j 0) as [Hneg | Hpos].
  - destruct (dest !! i); [| reflexivity].
    destruct (Z.eqb_spec j (Z.of_nat i)); [lia | reflexivity].
  - destruct (Z.eqb_spec j (Z.of_nat i)) as [-> | Hne].
    + rewrite Nat2Z.id.
      destruct (dest !! i) as [old |] eqn:Hi.
      * apply list_lookup_insert_eq. eapply lookup_lt_Some, Hi.
      * apply lookup_ge_None. rewrite length_insert. now apply lookup_ge_None.
    + rewrite list_lookup_insert_ne by lia. now destruct (dest !! i).
Qed.

(** A byte of the result is the last value written there, or the old byte. *)
Lemma apply_writes_lookup ws :
  forall dest i,
    apply_writes ws dest !! i =
    match dest !! i with
    | None => None
    | Some old => Some (default old (last_write ws i))
    end.
Proof.
  induction ws as [| [j v] ws IH]; intros dest i; simpl.
  - now destruct (dest !! i).
  - change (fold_left _ ws ?d) with (apply_writes ws d).
    rewrite IH, store_lookup.
    destruct (dest !! i) as [old |]; [| reflexivity].
    destruct (last_write ws i); simpl; [reflexivity |].
    now destruct (j =? Z.of_nat i).
Qed.

Lemma apply_writes_length ws dest :
  length (apply_writes ws dest) = length dest.
Proof.
  revert dest. induction ws as [| [j v] ws IH]; intros dest; simpl; [reflexivity |].
  change (fold_left _ ws ?d) with (apply_writes ws d).
  rewrite IH. unfold JS.store. destruct (j <? 0); [reflexivity |].
  apply length_insert.
Qed.

(** Performing the same writes again changes nothing. *)
Lemma apply_writes_idempotent ws dest :
  apply_writes ws (apply_writes ws dest) = apply_writes ws dest.
Proof.
  apply list_eq. intros i. rewrite !apply_writes_lookup.
  destruct (dest !! i) as [old |]; [| reflexivity].
  now destruct (last_write ws i).
Qed.

Lemma last_write_None ws i :
  (forall v, (Z.of_nat i, v) ∉ ws) -> last_write ws i = None.
Proof.
  induction ws as [| [j v] ws IH]; intros Hnot; simpl; [reflexivity |].
  rewrite IH.
  - destruct (Z.eqb_spec j (Z.of_nat i)) as [-> | Hne]; [| reflexivity].
    exfalso. apply (Hnot v). apply elem_of_cons. now left.
  - intros v' Hin. apply (Hnot v'). apply elem_of_cons. now right.
Qed.

Lemma last_write_elem ws i (v : Z) :
  last_write ws i = Some v -> (Z.of_nat i, v) ∈ ws.
Proof.
  induction ws as [| [j v0] ws IH]; simpl; [discriminate |].
  destruct (last_write ws i) as [u |].
  - intros [= ->]. apply elem_of_cons. right. now apply IH.
  - destruct (Z.eqb_spec j (Z.of_nat i)) as [-> | Hne]; [| discriminate].
    intros [= ->]. apply elem_of_cons. now left.
Qed.

Lemma last_write_None_inv ws i :
  last_write ws i = None -> forall v, (Z.of_nat i, v) ∉ ws.
Proof.
  induction ws as [| [j v0] ws IH]; simpl; intros Hlast v Hin.
  - now apply elem_of_nil in Hin.
  - destruct (last_write ws i) as [u |]; [discriminate |].
    destruct (Z.eqb_spec j (Z.of_nat i)) as [-> | Hne]; [discriminate |].
    apply elem_of_cons in Hin as [Heq | Hin]; [congruence |].
    exact (IH eq_refl v Hin).
Qed.

(** When every write at an index stores the same value, and there is one,
    that value is the last written. *)
Lemma last_write_Some ws i (v : Z) :
  (exists v', (Z.of_nat i, v') ∈ ws) ->
  (forall v', (Z.of_nat i, v') ∈ ws -> v' = v) ->
  last_write ws i = Some v.
Proof.
  intros [v' Hin] Hall.
  destruct (last_write ws i) as [u |] eqn:Hlast.
  - f_equal. apply Hall. now apply last_write_elem.
  - exfalso. exact (last_write_None_inv ws i Hlast v' Hin).
Qed.

End ApplyWrites.

(** ** The writes of a cell *)

Section CellWritesFacts.

Variable px : Z -> Z -> Z.

Lemma elem_of_pixel_writes (column so j v : Z) :
  (j, v) ∈ pixel_writes px column so <->
  exists k, 0 <= k < 3 /\ j = column + k /\ v = px so k.
Proof.
  unfold pixel_writes. rewrite !elem_of_cons, elem_of_nil. split.
  - intros [[= -> ->] | [[= -> ->] | [[= -> ->] | []]]];
      [exists 0 | exists 1 | exists 2]; repeat split; lia.
  - intros (k & Hk & -> & ->).
    assert (k = 0 \/ k = 1 \/ k = 2) as [-> | [-> | ->]] by lia.
    + left. f_equal. lia.
    + right; left. reflexivity.
    + right; right; left. reflexivity.
Qed.

Lemma elem_of_row_writes (n : nat) :
  forall column so j v,
    (j, v) ∈ row_writes px n column so <->
    exists (x : nat) k,
      (x < n)%nat /\ 0 <= k < 3 /\
      j = column + 4 * Z.of_nat x + k /\ v = px (so + Z.of_nat x) k.
Proof.
  induction n as [| n IH]; intros column so j v; cbn [row_writes].
  - rewrite elem_of_nil. split; [tauto |]. intros (x & k & Hx & _). lia.
  - rewrite elem_of_app, elem_of_pixel_writes, IH. split.
    + intros [(k & Hk & -> & ->) | (x & k & Hx & Hk & -> & ->)].
      * exists 0%nat, k. repeat split; try lia. f_equal. lia.
      * exists (S x), k. repeat split; try lia. f_equal. lia.
    + intros (x & k & Hx & Hk & -> & ->). destruct x as [| x].
      * left. exists k. repeat split; try lia. f_equal. lia.
      * right. exists x, k. repeat split; try lia. f_equal. lia.
Qed.

Lemma elem_of_cell_writes (charWidth : nat) (destWidth : Z) (m : nat) :
  forall row so j v,
    (j, v) ∈ cell_writes px charWidth destWidth m row so <->
    exists (y x : nat) k,
      (y < m)%nat /\ (x < charWidth)%nat /\ 0 <= k < 3 /\
      j = row + Z.of_nat y * destWidth + 4 * Z.of_nat x + k /\
      v = px (so + Z.of_nat y * Z.of_nat charWidth + Z.of_nat x) k.
Proof.
  induction m as [| m IH]; intros row so j v; cbn [cell_writes].
  - rewrite elem_of_nil. split; [tauto |]. intros (y & x & k & Hy & _). lia.
  - rewrite elem_of_app, elem_of_row_writes, IH. split.
    + intros [(x & k & Hx & Hk & -> & ->) | (y & x & k & Hy & Hx & Hk & -> & ->)].
      * exists 0%nat, x, k. repeat split; try lia. f_equal. lia.
      * exists (S y), x, k. repeat split; try lia. f_equal. lia.
    + intros (y & x & k & Hy & Hx & Hk & -> & ->). destruct y as [| y].
      * left. exists x, k. repeat split; try lia. f_equal. lia.
      * right. exists y, x, k. repeat split; try lia. f_equal. lia.
Qed.

End CellWritesFacts.

Lemma row_writes_ext (px px' : Z -> Z -> Z) (n : nat) :
  (forall so k, px so k = px' so k) ->
  forall column so, row_writes px n column so = row_writes px' n column so.
Proof.
  intros Hext. induction n as [| n IH]; intros column so; cbn [row_writes].
  - reflexivity.
  - rewrite IH. unfold pixel_writes. now rewrite !Hext.
Qed.

Lemma cell_writes_ext (px px' : Z -> Z -> Z) (charWidth : nat) (destWidth : Z)
  (m : nat) :
  (forall so k, px so k = px' so k) ->
  forall row so,
    cell_writes px charWidth destWidth m row so =
    cell_writes px' charWidth destWidth m row so.
Proof.
  intros Hext. induction m as [| m IH]; intros row so; cbn [cell_writes].
  - reflexivity.
  - now rewrite IH, (row_writes_ext px px' charWidth Hext).
Qed.

(** ** The loops of the source perform the writes of the cell *)

Section RenderLoopsFacts.

Variable charData : JS.Uint8ClampedArray.
Variables backgroundR backgroundG backgroundB : float.
Variables deltaR deltaG deltaB : float.

Let px := loop_px charData backgroundR backgroundG backgroundB deltaR deltaG deltaB.
Let loop_x := renderChar_x charData backgroundR backgroundG backgroundB deltaR deltaG deltaB.
Let loop_y := renderChar_y charData backgroundR backgroundG backgroundB deltaR deltaG deltaB.

Lemma renderChar_x_writes (n : nat) :
  forall dest column sourceOffset,
    loop_x n (dest, column, sourceOffset) =
    (apply_writes (row_writes px n column sourceOffset) dest,
     column + 4 * Z.of_nat n, sourceOffset + Z.of_nat n).
Proof.
  subst loop_x. induction n as [| n IH]; intros dest column sourceOffset.
  - cbn [renderChar_x row_writes apply_writes fold_left]. repeat f_equal; lia.
  - cbn [renderChar_x row_writes]. rewrite IH, apply_writes_app.
    f_equal; [f_equal; try reflexivity |]; lia.
Qed.

Lemma renderChar_y_writes (charWidth : nat) (destWidth : Z) (m : nat) :
  forall dest row sourceOffset,
    loop_y charWidth destWidth m (dest, row, sourceOffset) =
    (apply_writes (cell_writes px charWidth destWidth m row sourceOffset) dest,
     row + Z.of_nat m * destWidth,
     sourceOffset + Z.of_nat m * Z.of_nat charWidth).
Proof.
  subst loop_y. induction m as [| m IH]; intros dest row sourceOffset.
  - cbn [renderChar_y cell_writes apply_writes fold_left]. repeat f_equal; lia.
  - cbn [renderChar_y cell_writes].
    fold loop_x. rewrite renderChar_x_writes, IH, apply_writes_app.
    f_equal; [f_equal; try reflexivity |]; lia.
Qed.

End RenderLoopsFacts.

Section BlockLoopsFacts.

Variables colorR colorG colorB : float.

Let px := block_loop_px colorR colorG colorB.

Lemma blockRenderChar_x_writes (n : nat) :
  forall dest column sourceOffset,
    blockRenderChar_x colorR colorG colorB n (dest, column) =
    (apply_writes (row_writes px n column sourceOffset) dest,
     column + 4 * Z.of_nat n).
Proof.
  induction n as [| n IH]; intros dest column sourceOffset.
  - cbn [blockRenderChar_x row_writes apply_writes fold_left]. repeat f_equal; lia.
  - cbn [blockRenderChar_x row_writes].
    rewrite (IH _ _ (sourceOffset + 1)), apply_writes_app.
    f_equal; try reflexivity; lia.
Qed.

Lemma blockRenderChar_y_writes (charWidth : nat) (destWidth : Z) (m : nat) :
  forall dest row sourceOffset,
    blockRenderChar_y colorR colorG colorB charWidth destWidth m (dest, row) =
    (apply_writes (cell_writes px charWidth destWidth m row sourceOffset) dest,
     row + Z.of_nat m * destWidth).
Proof.
  induction m as [| m IH]; intros dest row sourceOffset.
  - cbn [blockRenderChar_y cell_writes apply_writes fold_left]. repeat f_equal; lia.
  - cbn [blockRenderChar_y cell_writes].
    rewrite (blockRenderChar_x_writes _ _ _ sourceOffset).
    rewrite (IH _ _ (sourceOffset + Z.of_nat charWidth)), apply_writes_app.
    f_equal; try reflexivity; lia.
Qed.

End BlockLoopsFacts.

Lemma loop_px_render_px (charData : JS.Uint8ClampedArray)
  (color backgroundColor : RGBA8.t) (so k : Z) :
  loop_px charData
    (JS.number_of_Z (RGBA8.r backgroundColor))
    (JS.number_of_Z (RGBA8.g backgroundColor))
    (JS.number_of_Z (RGBA8.b backgroundColor))
    (PrimFloat.sub (JS.number_of_Z (RGBA8.r color)) (JS.number_of_Z (RGBA8.r backgroundColor)))
    (PrimFloat.sub (JS.number_of_Z (RGBA8.g color)) (JS.number_of_Z (RGBA8.g backgroundColor)))
    (PrimFloat.sub (JS.number_of_Z (RGBA8.b color)) (JS.number_of_Z (RGBA8.b backgroundColor)))
    so k =
  render_px charData color backgroundColor so k.
Proof.
  unfold loop_px, render_px, blend_byte, channel.
  destruct (k =? 0); [reflexivity |]. now destruct (k =? 1).
Qed.

Lemma block_loop_px_block_px (color backgroundColor : RGBA8.t) (so k : Z) :
  block_loop_px
    (PrimFloat.add (JS.number_of_Z (RGBA8.r backgroundColor))
       (PrimFloat.mul (PrimFloat.sub (JS.number_of_Z (RGBA8.r color))
                         (JS.number_of_Z (RGBA8.r backgroundColor))) 0.5))
    (PrimFloat.add (JS.number_of_Z (RGBA8.g backgroundColor))
       (PrimFloat.mul (PrimFloat.sub (JS.number_of_Z (RGBA8.g color))
                         (JS.number_of_Z (RGBA8.g backgroundColor))) 0.5))
    (PrimFloat.add (JS.number_of_Z (RGBA8.b backgroundColor))
       (PrimFloat.mul (PrimFloat.sub (JS.number_of_Z (RGBA8.b color))
                         (JS.number_of_Z (RGBA8.b backgroundColor))) 0.5))
    so k =
  block_px color backgroundColor so k.
Proof.
  unfold block_loop_px, block_px, block_byte, channel.
  destruct (k =? 0); [reflexivity |]. now destruct (k =? 1).
Qed.

(** [renderChar] either rejects the request or performs the writes of the
    cell on the target's bytes. *)
Lemma renderChar_as_writes (this : MinimapCharRenderer) (target : ImageData)
  (dx dy chCode : Z) (color backgroundColor : RGBA8.t) (useLighterFont : bool) :
  renderChar this target dx dy chCode color backgroundColor useLighterFont =
  if rejected this target dx dy then (target, [warning])
  else (mkImageData (width target) (height target)
          (apply_writes
             (renderChar_writes this target dx dy chCode color backgroundColor
                useLighterFont)
             (data target)),
        []).
Proof.
  unfold renderChar, rejected, charWidth, charHeight.
  destruct ((dx + Constants.x1_CHAR_WIDTH * scale this >? width target)
            || (dy + Constants.x1_CHAR_HEIGHT * scale this >? height target));
    [reflexivity |].
  rewrite renderChar_y_writes.
  unfold renderChar_writes, atlas, charWidth, charHeight.
  change Constants.RGBA_CHANNELS_CNT with 4.
  now rewrite (cell_writes_ext _ _ _ _ _ (loop_px_render_px _ color backgroundColor)).
Qed.

(** [blockRenderChar] likewise. *)
Lemma blockRenderChar_as_writes (this : MinimapCharRenderer) (target : ImageData)
  (dx dy : Z) (color backgroundColor : RGBA8.t) (useLighterFont : bool) :
  blockRenderChar this target dx dy color backgroundColor useLighterFont =
  if rejected this target dx dy then (target, [warning])
  else (mkImageData (width target) (height target)
          (apply_writes
             (blockRenderChar_writes this target dx dy color backgroundColor)
             (data target)),
        []).
Proof.
  unfold blockRenderChar, rejected, charWidth, charHeight.
  destruct ((dx + Constants.x1_CHAR_WIDTH * scale this >? width target)
            || (dy + Constants.x1_CHAR_HEIGHT * scale this >? height target));
    [reflexivity |].
  rewrite (blockRenderChar_y_writes _ _ _ _ _ _ _ _ 0).
  unfold blockRenderChar_writes, charWidth, charHeight.
  change Constants.RGBA_CHANNELS_CNT with 4.
  now rewrite (cell_writes_ext _ _ _ _ _ (block_loop_px_block_px color backgroundColor)).
Qed.

(** ** The effect of a render call on the target *)

Lemma rejected_false (this : MinimapCharRenderer) (target : ImageData) (dx dy : Z) :
  rejected this target dx dy = false <->
  dx + charWidth this <= width target /\ dy + charHeight this <= height target.
Proof.
  unfold rejected. rewrite orb_false_iff.
  destruct (Z.gtb_spec (dx + charWidth this) (width target));
    destruct (Z.gtb_spec (dy + charHeight this) (height target));
    split; intros [? ?]; try discriminate; try lia; now split.
Qed.

(** Where the writes of a cell go: byte [k] of the pixel in column [dx + x]
    of row [dy + y], for [x], [y] inside the cell. *)
Lemma cell_write_position (px : Z -> Z -> Z) (cw ch w dx dy so j v : Z) :
  (j, v) ∈ cell_writes px (Z.to_nat cw) (w * 4) (Z.to_nat ch)
             (dy * (w * 4) + dx * 4) so <->
  exists x y k,
    0 <= x < cw /\ 0 <= y < ch /\ 0 <= k < 3 /\
    j = 4 * ((dy + y) * w + (dx + x)) + k /\
    v = px (so + y * cw + x) k.
Proof.
  rewrite elem_of_cell_writes. split.
  - intros (y & x & k & Hy & Hx & Hk & -> & ->).
    exists (Z.of_nat x), (Z.of_nat y), k.
    repeat split; try lia.
    f_equal. rewrite Z2Nat.id by lia. lia.
  - intros (x & y & k & Hx & Hy & Hk & -> & ->).
    exists (Z.to_nat y), (Z.to_nat x), k.
    rewrite !Z2Nat.id by lia.
    repeat split; try lia.
Qed.

(** Inside a row of the target, a byte index determines the pixel and the
    channel. *)
Lemma byte_position_unique (w a b x x' y y' k k' : Z) :
  0 <= a + x < w -> 0 <= a + x' < w -> 0 <= k < 4 -> 0 <= k' < 4 ->
  4 * ((b + y) * w + (a + x)) + k = 4 * ((b + y') * w + (a + x')) + k' ->
  x = x' /\ y = y' /\ k = k'.
Proof.
  intros Hx Hx' Hk Hk' Heq.
  assert (Hkk : k = k') by lia. subst k'.
  assert (Hpix : (y - y') * w = x' - x) by lia.
  assert (Hy : y = y') by nia.
  subst y'. lia.
Qed.

Lemma footprint_of_write (this : MinimapCharRenderer) (target : ImageData)
  (dx dy x y k : Z) (i : nat) :
  0 <= dx -> dx + charWidth this <= width target ->
  0 <= x < charWidth this -> 0 <= y < charHeight this -> 0 <= k < 3 ->
  Z.of_nat i = 4 * ((dy + y) * width target + (dx + x)) + k ->
  in_footprint this target dx dy i.
Proof.
  intros Hdx Hw Hx Hy Hk Hi. unfold in_footprint. cbv zeta.
  assert (Hpixel : Z.of_nat i / 4 = (dy + y) * width target + (dx + x)).
  { symmetry. apply Z.div_unique with (r := k); lia. }
  rewrite Hpixel.
  assert (Hcol : ((dy + y) * width target + (dx + x)) mod width target = dx + x).
  { symmetry. apply Z.mod_unique with (q := dy + y); lia. }
  assert (Hrow : ((dy + y) * width target + (dx + x)) / width target = dy + y).
  { symmetry. apply Z.div_unique with (r := dx + x); lia. }
  rewrite Hcol, Hrow. lia.
Qed.

(** With [dx] not negative, a cell's writes stay inside its footprint. *)
Lemma cell_writes_frame (px : Z -> Z -> Z) (this : MinimapCharRenderer)
  (target : ImageData) (dx dy so : Z) (dest : JS.Uint8ClampedArray) (i : nat) :
  0 <= dx -> dx + charWidth this <= width target ->
  ~ in_footprint this target dx dy i ->
  apply_writes
    (cell_writes px (Z.to_nat (charWidth this)) (width target * 4)
       (Z.to_nat (charHeight this)) (dy * (width target * 4) + dx * 4) so)
    dest !! i = dest !! i.
Proof.
  intros Hdx Hw Hout. rewrite apply_writes_lookup.
  rewrite last_write_None; [now destruct (dest !! i) |].
  intros v Hin. apply cell_write_position in Hin
    as (x & y & k & Hx & Hy & Hk & Hi & _).
  apply Hout. eapply footprint_of_write; eauto.
Qed.

(** C9.  [renderChar] is idempotent: called again with the same arguments on
    the target the first call left, it returns that target unchanged (and
    writes the same diagnostic, if any). *)
Theorem renderChar_idempotent (this : MinimapCharRenderer) (target : ImageData)
  (dx dy chCode : Z) (color backgroundColor : RGBA8.t) (useLighterFont : bool) :
  let once :=
    renderChar this target dx dy chCode color backgroundColor useLighterFont in
  renderChar this (fst once) dx dy chCode color backgroundColor useLighterFont
  = once.
Proof.
  cbv zeta. rewrite (renderChar_as_writes this target).
  destruct (rejected this target dx dy) eqn:Hcheck.
  - cbn [fst]. rewrite renderChar_as_writes. now rewrite Hcheck.
  - cbn [fst]. rewrite renderChar_as_writes.
    unfold rejected in *. cbn [width height data]. rewrite Hcheck.
    unfold renderChar_writes. cbn [width].
    now rewrite apply_writes_idempotent.
Qed.

(** C10, as stated, fails for a negative [dx], which the check accepts: the
    byte index then falls into the end of the row above.  On a target 2
    pixels wide and 3 high, a cell at (-1, 1) at scale 1 lies outside the
    target altogether, yet the call overwrites byte 4, the red of pixel
    (1, 0). *)
Lemma render_negative_dx_leaks :
  let target := blank_target 2 3 in
  let result := renderChar sample_renderer target (-1) 1 32 white black false in
  snd result = [] /\
  ~ in_footprint sample_renderer target (-1) 1 4 /\
  data target !! 4%nat = Some 0 /\
  data (fst result) !! 4%nat = Some 204.
Proof.
  cbv zeta. split; [vm_compute; reflexivity |].
  split; [| split; vm_compute; reflexivity].
  unfold in_footprint. vm_compute. intros [[_ H] _]. discriminate H.
Qed.

(** C10 (amended).  For every [renderChar] or [blockRenderChar] call that
    passes the bounds check with [dx >= 0] (and any [dy], negative ones
    included), every byte of the target outside the scaled cell footprint at
    [(dx, dy)] is left unchanged. *)
Theorem render_frame (this : MinimapCharRenderer) (target : ImageData)
  (dx dy chCode : Z) (color backgroundColor : RGBA8.t) (useLighterFont : bool)
  (i : nat) :
  0 <= dx ->
  dx + charWidth this <= width target ->
  dy + charHeight this <= height target ->
  ~ in_footprint this target dx dy i ->
  data (fst (renderChar this target dx dy chCode color backgroundColor
               useLighterFont)) !! i = data target !! i /\
  data (fst (blockRenderChar this target dx dy color backgroundColor
               useLighterFont)) !! i = data target !! i.
Proof.
  intros Hdx Hw Hh Hout.
  assert (Hcheck : rejected this target dx dy = false)
    by (apply rejected_false; auto).
  rewrite renderChar_as_writes, blockRenderChar_as_writes, Hcheck.
  cbn [fst data]. split; now apply cell_writes_frame.
Qed.

Lemma render_frame_witness :
  let target := blank_target 2 3 in
  0 <= 1 /\
  1 + charWidth sample_renderer <= width target /\
  -1 + charHeight sample_renderer <= height target /\
  ~ in_footprint sample_renderer target 1 (-1) 12 /\
  data (fst (renderChar sample_renderer target 1 (-1) 32 white black false))
    !! 12%nat = data target !! 12%nat /\
  data (fst (blockRenderChar sample_renderer target 1 (-1) white black false))
    !! 12%nat = data target !! 12%nat.
Proof.
  cbv zeta.
  assert (H1 : 0 <= 1) by lia.
  assert (H2 : 1 + charWidth sample_renderer <= width (blank_target 2 3))
    by (vm_compute; discriminate).
  assert (H3 : -1 + charHeight sample_renderer <= height (blank_target 2 3))
    by (vm_compute; discriminate).
  assert (H4 : ~ in_footprint sample_renderer (blank_target 2 3) 1 (-1) 12).
  { unfold in_footprint. vm_compute. intros [_ [_ H]]. discriminate H. }
  repeat (split; [assumption |]).
  exact (render_frame sample_renderer (blank_target 2 3) 1 (-1) 32 white black
           false 12 H1 H2 H3 H4).
Defined.

(** ** Arithmetic on bytes, checked by enumeration *)

Lemma for_all_below_spec (n : nat) (P : Z -> bool) :
  for_all_below n P = true -> forall z, 0 <= z < Z.of_nat n -> P z = true.
Proof.
  unfold for_all_below. intros Hall z Hz.
  apply (proj1 (List.forallb_forall P _) Hall).
  apply List.in_map_iff. exists (Z.to_nat z). split; [lia |].
  apply List.in_seq. lia.
Qed.

Lemma for_all_bytes_spec (P : Z -> bool) :
  for_all_bytes P = true -> forall b, JS.is_byte b -> P b = true.
Proof.
  unfold for_all_bytes, JS.is_byte. intros Hall b Hb.
  apply (for_all_below_spec 256 P Hall). lia.
Qed.

(** Two numbers the primitive equality test identifies are equal; with it, a
    property of two bytes is checked on the numbers first and on the
    conversion to a byte afterwards. *)
Lemma for_all_byte_pairs (f g : Z -> Z -> float) :
  for_all_bytes (fun b => for_all_bytes (fun c =>
    PrimFloat.Leibniz.eqb (f b c) (g b c))) = true ->
  forall b c, JS.is_byte b -> JS.is_byte c -> f b c = g b c.
Proof.
  intros Hall b c Hb Hc.
  apply FloatAxioms.Leibniz.eqb_spec.
  pose proof (for_all_bytes_spec _ Hall b Hb) as H. cbv beta in H.
  exact (for_all_bytes_spec _ H c Hc).
Qed.

Lemma soften_byte_le_checked :
  for_all_bytes
    (fun b =>
       (0 <=? soften_byte (PrimFloat.div 12 15) b)
       && (soften_byte (PrimFloat.div 12 15) b <=? Z.min b 204)
       && (0 <=? soften_byte (PrimFloat.div 50 60) b)
       && (soften_byte (PrimFloat.div 50 60) b <=? Z.min b 212)) = true.
Proof. vm_compute. reflexivity. Qed.

(** Softening never raises a byte, at either ratio, and never leaves more
    than 204 (normal) or 212 (lighter). *)
Lemma soften_byte_le (b : Z) :
  JS.is_byte b ->
  0 <= soften_byte (PrimFloat.div 12 15) b <= Z.min b 204 /\
  0 <= soften_byte (PrimFloat.div 50 60) b <= Z.min b 212.
Proof.
  intros Hb.
  pose proof (for_all_bytes_spec _ soften_byte_le_checked b Hb) as H.
  cbv beta in H. rewrite !andb_true_iff, !Z.leb_le in H. lia.
Qed.

Lemma ToUint8Clamp_byte_checked :
  for_all_bytes (fun b => JS.ToUint8Clamp (JS.number_of_Z b) =? b) = true.
Proof. vm_compute. reflexivity. Qed.

(** A byte survives the round trip through a number. *)
Lemma ToUint8Clamp_byte (b : Z) :
  JS.is_byte b -> JS.ToUint8Clamp (JS.number_of_Z b) = b.
Proof.
  intros Hb. apply Z.eqb_eq.
  exact (for_all_bytes_spec _ ToUint8Clamp_byte_checked b Hb).
Qed.

Lemma blend_zero_checked :
  for_all_bytes (fun b => for_all_bytes (fun c =>
    PrimFloat.Leibniz.eqb
      (PrimFloat.add (JS.number_of_Z b)
         (PrimFloat.mul
            (PrimFloat.sub (JS.number_of_Z c) (JS.number_of_Z b))
            (PrimFloat.div (JS.number_of_Z 0) 255)))
      (JS.number_of_Z b))) = true.
Proof. vm_compute. reflexivity. Qed.

Lemma blend_full_checked :
  for_all_bytes (fun b => for_all_bytes (fun c =>
    PrimFloat.Leibniz.eqb
      (PrimFloat.add (JS.number_of_Z b)
         (PrimFloat.mul
            (PrimFloat.sub (JS.number_of_Z c) (JS.number_of_Z b))
            (PrimFloat.div (JS.number_of_Z 255) 255)))
      (JS.number_of_Z c))) = true.
Proof. vm_compute. reflexivity. Qed.

Lemma block_half_checked :
  for_all_bytes (fun b => for_all_bytes (fun c =>
    PrimFloat.Leibniz.eqb
      (PrimFloat.add (JS.number_of_Z b)
         (PrimFloat.mul
            (PrimFloat.sub (JS.number_of_Z c) (JS.number_of_Z b)) 0.5))
      (PrimFloat.mul (JS.number_of_Z (b + c)) 0.5))) = true.
Proof. vm_compute. reflexivity. Qed.

Lemma ToUint8Clamp_half_checked :
  for_all_below 511
    (fun s => JS.ToUint8Clamp (PrimFloat.mul (JS.number_of_Z s) 0.5)
              =? half_even s) = true.
Proof. vm_compute. reflexivity. Qed.

(** A sample of intensity 0 gives the background channel exactly, and one of
    intensity 255 would give the foreground channel exactly. *)
Lemma blend_byte_endpoints (background color : Z) :
  JS.is_byte background -> JS.is_byte color ->
  blend_byte background color (JS.number_of_Z 0) = background /\
  blend_byte background color (JS.number_of_Z 255) = color.
Proof.
  intros Hb Hc. unfold blend_byte. split.
  - rewrite (for_all_byte_pairs _ _ blend_zero_checked background color Hb Hc).
    now apply ToUint8Clamp_byte.
  - rewrite (for_all_byte_pairs _ _ blend_full_checked background color Hb Hc).
    now apply ToUint8Clamp_byte.
Qed.

(** Half a sum of two bytes, stored as a byte. *)
Lemma ToUint8Clamp_half (s : Z) :
  0 <= s < 511 ->
  JS.ToUint8Clamp (PrimFloat.mul (JS.number_of_Z s) 0.5) = half_even s.
Proof.
  intros Hs. apply Z.eqb_eq.
  exact (for_all_below_spec 511 _ ToUint8Clamp_half_checked s Hs).
Qed.

(** The byte of the block path is the mid-point of the two channels. *)
Lemma block_byte_midpoint (background color : Z) :
  JS.is_byte background -> JS.is_byte color ->
  block_byte background color = midpoint background color.
Proof.
  intros Hb Hc. unfold block_byte, midpoint.
  rewrite (for_all_byte_pairs _ _ block_half_checked background color Hb Hc).
  apply ToUint8Clamp_half. unfold JS.is_byte in *. lia.
Qed.

(** What the mid-point is: the exact half of the sum, or, when the sum is
    odd, the even one of its two neighbours. *)
Lemma midpoint_spec (background color : Z) :
  let m := midpoint background color in
  (2 * m = background + color) \/
  ((2 * m = background + color - 1 \/ 2 * m = background + color + 1) /\
   Z.even m = true).
Proof.
  cbv zeta. unfold midpoint, half_even.
  destruct (Z.even (background + color)) eqn:Hs.
  - left. apply Z.even_spec in Hs. destruct Hs as [q Hq].
    assert (Hdiv : (background + color) / 2 = q).
    { symmetry. apply Z.div_unique with (r := 0); lia. }
    lia.
  - right.
    assert (Hodd : Z.odd (background + color) = true)
      by (rewrite <- Z.negb_even, Hs; reflexivity).
    apply Z.odd_spec in Hodd. destruct Hodd as [q Hq].
    assert (Hdiv : (background + color) / 2 = q).
    { symmetry. apply Z.div_unique with (r := 1); lia. }
    rewrite Hdiv.
    destruct (Z.even q) eqn:Hq2.
    + split; [left; lia | exact Hq2].
    + split; [right; lia |].
      rewrite Z.even_add, Hq2. reflexivity.
Qed.

(** ** Softening *)

Lemma soften_loop_writes (n : nat) :
  forall i input ratio result,
    soften_loop n i input ratio result =
    apply_writes (soften_writes n i input ratio) result.
Proof.
  induction n as [| n IH]; intros i input ratio result;
    cbn [soften_loop soften_writes]; [reflexivity |].
  now rewrite IH.
Qed.

Lemma elem_of_soften_writes (n : nat) :
  forall i input ratio j v,
    (j, v) ∈ soften_writes n i input ratio <->
    exists x : nat,
      (x < n)%nat /\ j = i + Z.of_nat x /\
      v = JS.ToUint8Clamp (PrimFloat.mul (JS.typed_get input j) ratio).
Proof.
  induction n as [| n IH]; intros i input ratio j v; cbn [soften_writes].
  - rewrite elem_of_nil. split; [tauto |]. intros (x & Hx & _). lia.
  - rewrite elem_of_cons, IH. split.
    + intros [[= -> ->] | (x & Hx & -> & ->)].
      * exists 0%nat. repeat split; lia.
      * exists (S x). repeat split; lia.
    + intros (x & Hx & -> & ->). destruct x as [| x].
      * left. replace (i + Z.of_nat 0) with i by lia. reflexivity.
      * right. exists x. repeat split; lia.
Qed.

Lemma typed_get_lookup (arr : JS.Uint8ClampedArray) (i : nat) (b : Z) :
  arr !! i = Some b -> JS.typed_get arr (Z.of_nat i) = JS.number_of_Z b.
Proof.
  intros Hb. unfold JS.typed_get.
  destruct (Z.ltb_spec (Z.of_nat i) 0); [lia |].
  now rewrite Nat2Z.id, Hb.
Qed.

Lemma soften_length (input : JS.Uint8ClampedArray) (ratio : float) :
  length (soften input ratio) = length input.
Proof.
  unfold soften. now rewrite soften_loop_writes, apply_writes_length, length_replicate.
Qed.

(** [soften] stores, at every index, the softened source byte. *)
Lemma soften_lookup (input : JS.Uint8ClampedArray) (ratio : float) (i : nat) (b : Z) :
  input !! i = Some b ->
  soften input ratio !! i = Some (soften_byte ratio b).
Proof.
  intros Hb. unfold soften.
  rewrite soften_loop_writes, apply_writes_lookup.
  rewrite lookup_replicate_2 by (eapply lookup_lt_Some, Hb).
  assert (Hval : forall v,
    (Z.of_nat i, v) ∈ soften_writes (length input) 0 input ratio ->
    v = soften_byte ratio b).
  { intros v (x & _ & _ & ->)%elem_of_soften_writes.
    unfold soften_byte. now rewrite (typed_get_lookup _ _ _ Hb). }
  rewrite (last_write_Some _ _ (soften_byte ratio b)); [reflexivity | | exact Hval].
  eexists. apply elem_of_soften_writes. exists i.
  split; [eapply lookup_lt_Some, Hb |]. split; [lia | reflexivity].
Qed.

(** C8.  For every source atlas, the two derived atlases have its length and
    every byte of either is at most the corresponding byte of the source,
    the rounding of the clamped byte array included. *)
Theorem soften_never_raises (charData : JS.Uint8ClampedArray) (scale : Z)
  (i : nat) (b : Z) :
  Forall JS.is_byte charData ->
  charData !! i = Some b ->
  let this := constructor charData scale in
  length (charDataNormal this) = length charData /\
  length (charDataLight this) = length charData /\
  exists normal light,
    charDataNormal this !! i = Some normal /\
    charDataLight this !! i = Some light /\
    normal <= b /\ light <= b.
Proof.
  intros Hbytes Hb. cbv zeta. unfold constructor. cbn [charDataNormal charDataLight].
  rewrite !soften_length. do 2 (split; [reflexivity |]).
  assert (Hbyte : JS.is_byte b)
    by exact (proj1 (Forall_lookup _ _) Hbytes _ _ Hb).
  destruct (soften_byte_le b Hbyte) as [Hn Hl].
  eexists _, _. rewrite !(soften_lookup _ _ _ _ Hb).
  repeat split; lia.
Qed.

Lemma soften_never_raises_witness :
  Forall JS.is_byte [0; 5; 128; 255] /\
  let this := constructor [0; 5; 128; 255] 1 in
  length (charDataNormal this) = 4%nat /\
  length (charDataLight this) = 4%nat /\
  exists normal light,
    charDataNormal this !! 3%nat = Some normal /\
    charDataLight this !! 3%nat = Some light /\
    normal <= 255 /\ light <= 255.
Proof.
  assert (Hbytes : Forall JS.is_byte [0; 5; 128; 255])
    by (repeat constructor; unfold JS.is_byte; lia).
  split; [exact Hbytes |].
  exact (soften_never_raises [0; 5; 128; 255] 1 3 255 Hbytes eq_refl).
Defined.

(** ** The pixels of the cell *)

Lemma pixel_in_buffer (target : ImageData) (col row k : Z) :
  well_sized target ->
  0 <= col < width target -> 0 <= row < height target -> 0 <= k < 4 ->
  (Z.to_nat (4 * (row * width target + col) + k) < length (data target))%nat.
Proof.
  unfold well_sized. intros Hsize Hcol Hrow Hk.
  assert (row * width target + col < width target * height target) by nia.
  assert (0 <= row * width target) by nia.
  lia.
Qed.

Section CellPixels.

Variable px : Z -> Z -> Z.
Variable this : MinimapCharRenderer.
Variable target : ImageData.
Variables dx dy so : Z.
Variable dest : JS.Uint8ClampedArray.

Let ws : list write :=
  cell_writes px (Z.to_nat (charWidth this)) (width target * 4)
    (Z.to_nat (charHeight this)) (dy * (width target * 4) + dx * 4) so.

(** With [dx] not negative, the pixel at [(x, y)] of the cell receives the
    bytes of its own sample. *)
Lemma cell_pixel_lookup (x y k : Z) :
  0 <= dx -> dx + charWidth this <= width target ->
  0 <= x < charWidth this -> 0 <= y < charHeight this -> 0 <= k < 3 ->
  0 <= dy + y ->
  (Z.to_nat (4 * ((dy + y) * width target + (dx + x)) + k) < length dest)%nat ->
  apply_writes ws dest
    !! Z.to_nat (4 * ((dy + y) * width target + (dx + x)) + k)
  = Some (px (so + y * charWidth this + x) k).
Proof.
  intros Hdx Hw Hx Hy Hk Hrow Hlen.
  assert (Hnonneg : 0 <= 4 * ((dy + y) * width target + (dx + x)) + k) by nia.
  rewrite apply_writes_lookup.
  destruct (lookup_lt_is_Some_2 dest _ Hlen) as [old ->].
  rewrite (last_write_Some _ _ (px (so + y * charWidth this + x) k));
    [reflexivity | |].
  - eexists. apply cell_write_position. exists x, y, k.
    rewrite Z2Nat.id by exact Hnonneg. repeat split; lia.
  - intros v' Hin. apply cell_write_position in Hin
      as (x' & y' & k' & Hx' & Hy' & Hk' & Heq & ->).
    rewrite Z2Nat.id in Heq by exact Hnonneg.
    destruct (byte_position_unique (width target) dx dy x x' y y' k k'
                ltac:(lia) ltac:(lia) ltac:(lia) ltac:(lia) Heq)
      as (-> & -> & ->).
    reflexivity.
Qed.

(** When every pixel receives the same bytes, every pixel of the cell that
    lies in the buffer holds them, whatever [dx] is. *)
Lemma cell_pixel_lookup_uniform (x y k : Z) :
  (forall so1 so2 k', px so1 k' = px so2 k') ->
  0 <= x < charWidth this -> 0 <= y < charHeight this -> 0 <= k < 3 ->
  0 <= 4 * ((dy + y) * width target + (dx + x)) + k ->
  (Z.to_nat (4 * ((dy + y) * width target + (dx + x)) + k) < length dest)%nat ->
  apply_writes ws dest
    !! Z.to_nat (4 * ((dy + y) * width target + (dx + x)) + k)
  = Some (px 0 k).
Proof.
  intros Hconst Hx Hy Hk Hnonneg Hlen.
  rewrite apply_writes_lookup.
  destruct (lookup_lt_is_Some_2 dest _ Hlen) as [old ->].
  rewrite (last_write_Some _ _ (px 0 k)); [reflexivity | |].
  - eexists. apply cell_write_position. exists x, y, k.
    rewrite Z2Nat.id by exact Hnonneg. repeat split; lia.
  - intros v' Hin. apply cell_write_position in Hin
      as (x' & y' & k' & Hx' & Hy' & Hk' & Heq & ->).
    rewrite Z2Nat.id in Heq by exact Hnonneg.
    assert (k' = k) as -> by lia.
    apply Hconst.
Qed.

(** No write of a cell lands on an alpha byte. *)
Lemma cell_alpha_untouched (p : nat) :
  apply_writes ws dest !! (4 * p + 3)%nat = dest !! (4 * p + 3)%nat.
Proof.
  rewrite apply_writes_lookup, last_write_None;
    [now destruct (dest !! (4 * p + 3)%nat) |].
  intros v Hin. apply cell_write_position in Hin
    as (x & y & k & _ & _ & Hk & Heq & _).
  lia.
Qed.

End CellPixels.

(** C7.  For every [blockRenderChar] call that passes the bounds check, every
    pixel of the scaled cell that lies in the target receives the same
    R, G, B: per channel the mid-point of the background and the foreground
    channel (the background plus half the difference, as the clamped byte
    array stores it: a half goes to the even neighbour); and the result is
    the same whether [useLighterFont] is true or false. *)
Theorem blockRenderChar_fills_midpoint (this : MinimapCharRenderer)
  (target : ImageData) (dx dy : Z) (color backgroundColor : RGBA8.t)
  (useLighterFont : bool) (x y k : Z) :
  RGBA8.valid color -> RGBA8.valid backgroundColor -> well_sized target ->
  dx + charWidth this <= width target ->
  dy + charHeight this <= height target ->
  0 <= x < charWidth this -> 0 <= y < charHeight this ->
  0 <= dx + x -> 0 <= dy + y -> 0 <= k < 3 ->
  data (fst (blockRenderChar this target dx dy color backgroundColor
               useLighterFont))
    !! Z.to_nat (4 * ((dy + y) * width target + (dx + x)) + k)
  = Some (midpoint (channel backgroundColor k) (channel color k)) /\
  blockRenderChar this target dx dy color backgroundColor true =
  blockRenderChar this target dx dy color backgroundColor false.
Proof.
  intros Hc Hb Hsize Hw Hh Hx Hy Hcol Hrow Hk.
  split; [| reflexivity].
  assert (Hcheck : rejected this target dx dy = false)
    by (apply rejected_false; auto).
  rewrite blockRenderChar_as_writes, Hcheck. cbn [fst data].
  unfold blockRenderChar_writes.
  rewrite cell_pixel_lookup_uniform; try assumption.
  - f_equal. unfold block_px. apply block_byte_midpoint.
    + destruct Hb as (? & ? & ? & ?). unfold channel.
      destruct (k =? 0); [assumption |]. now destruct (k =? 1).
    + destruct Hc as (? & ? & ? & ?). unfold channel.
      destruct (k =? 0); [assumption |]. now destruct (k =? 1).
  - reflexivity.
  - nia.
  - apply pixel_in_buffer; try assumption; lia.
Qed.

Lemma blockRenderChar_fills_midpoint_witness :
  let target := blank_target 2 3 in
  data (fst (blockRenderChar sample_renderer target 1 (-1) white black true))
    !! Z.to_nat (4 * ((-1 + 1) * width target + (1 + 0)) + 2)
  = Some (midpoint (channel black 2) (channel white 2)) /\
  blockRenderChar sample_renderer target 1 (-1) white black true =
  blockRenderChar sample_renderer target 1 (-1) white black false.
Proof.
  cbv zeta.
  assert (Hwhite : RGBA8.valid white) by (vm_compute; intuition discriminate).
  assert (Hblack : RGBA8.valid black) by (vm_compute; intuition discriminate).
  assert (Hsize : well_sized (blank_target 2 3)) by (vm_compute; reflexivity).
  assert (Hw : 1 + charWidth sample_renderer <= width (blank_target 2 3))
    by (vm_compute; discriminate).
  assert (Hh : -1 + charHeight sample_renderer <= height (blank_target 2 3))
    by (vm_compute; discriminate).
  assert (Hx : 0 <= 0 < charWidth sample_renderer)
    by (vm_compute; split; [discriminate | reflexivity]).
  assert (Hy : 0 <= 1 < charHeight sample_renderer)
    by (vm_compute; split; [discriminate | reflexivity]).
  exact (blockRenderChar_fills_midpoint sample_renderer (blank_target 2 3)
           1 (-1) white black true 0 1 2 Hwhite Hblack Hsize Hw Hh Hx Hy
           ltac:(lia) ltac:(lia) ltac:(lia)).
Defined.

(** What [renderChar] stores in a pixel of the cell, for any renderer: per
    channel the blend of the background and the foreground channel by the
    sample of the selected atlas. *)
Lemma renderChar_pixel (this : MinimapCharRenderer) (target : ImageData)
  (dx dy chCode : Z) (color backgroundColor : RGBA8.t) (useLighterFont : bool)
  (x y k : Z) :
  well_sized target ->
  0 <= dx -> dx + charWidth this <= width target ->
  dy + charHeight this <= height target ->
  0 <= x < charWidth this -> 0 <= y < charHeight this ->
  0 <= dy + y -> 0 <= k < 3 ->
  data (fst (renderChar this target dx dy chCode color backgroundColor
               useLighterFont))
    !! Z.to_nat (4 * ((dy + y) * width target + (dx + x)) + k)
  = Some (blend_byte (channel backgroundColor k) (channel color k)
            (JS.typed_get (atlas this useLighterFont)
               (_getChIndex chCode * charWidth this * charHeight this
                + y * charWidth this + x))).
Proof.
  intros Hsize Hdx Hw Hh Hx Hy Hrow Hk.
  assert (Hcheck : rejected this target dx dy = false)
    by (apply rejected_false; auto).
  rewrite renderChar_as_writes, Hcheck. cbn [fst data].
  unfold renderChar_writes.
  rewrite cell_pixel_lookup; try assumption; [reflexivity |].
  apply pixel_in_buffer; try assumption; lia.
Qed.

Lemma renderChar_alpha_untouched (this : MinimapCharRenderer)
  (target : ImageData) (dx dy chCode : Z) (color backgroundColor : RGBA8.t)
  (useLighterFont : bool) (p : nat) :
  data (fst (renderChar this target dx dy chCode color backgroundColor
               useLighterFont)) !! (4 * p + 3)%nat
  = data target !! (4 * p + 3)%nat.
Proof.
  rewrite renderChar_as_writes.
  destruct (rejected this target dx dy); [reflexivity |].
  cbn [fst data]. apply cell_alpha_untouched.
Qed.

(** The atlas a constructed renderer samples holds the softened source. *)
Lemma atlas_lookup (charData : JS.Uint8ClampedArray) (scale : Z)
  (useLighterFont : bool) (i : Z) (s : Z) :
  0 <= i -> charData !! Z.to_nat i = Some s ->
  JS.typed_get (atlas (constructor charData scale) useLighterFont) i =
  JS.number_of_Z
    (soften_byte (if useLighterFont then PrimFloat.div 50 60
                  else PrimFloat.div 12 15) s).
Proof.
  intros Hi Hs. rewrite <- (Z2Nat.id i) at 1 by exact Hi.
  apply typed_get_lookup. unfold atlas, constructor.
  destruct useLighterFont; cbn [charDataLight charDataNormal];
    now apply soften_lookup.
Qed.

(** A renderer built by the constructor blends with the softened atlas: a
    source sample of full intensity 255 is blended at 204/255 (212/255 with
    the lighter font).  White on black, the pixel gets 204; and neither
    atlas of the renderer holds a 255 anywhere. *)
Lemma full_source_intensity_renders_softened :
  let target := blank_target 1 2 in
  let result := renderChar sample_renderer target 0 0 32 white black false in
  full_atlas !! Z.to_nat (_getChIndex 32 * 1 * 2) = Some 255 /\
  snd result = [] /\
  data (fst result) !! 0%nat = Some 204 /\
  forallb (fun s => negb (s =? 255))
    (charDataNormal sample_renderer ++ charDataLight sample_renderer) = true.
Proof. cbv zeta. repeat split; vm_compute; reflexivity. Qed.

Lemma channel_is_byte (c : RGBA8.t) (k : Z) :
  RGBA8.valid c -> JS.is_byte (channel c k).
Proof.
  intros (? & ? & ? & ?). unfold channel.
  destruct (k =? 0); [assumption |]. now destruct (k =? 1).
Qed.


(** Both end points on a renderer whose atlas holds a 255 and a 0: white on
    black, the first row's pixel gets the foreground colour, the second
    row's the background colour, and the alpha bytes stay. *)
Example renderChar_endpoints :
  renderChar endpoint_renderer (mkImageData 1 2 [7; 7; 7; 7; 7; 7; 7; 7])
    0 0 32 white black false
  = (mkImageData 1 2 [255; 255; 255; 7; 0; 0; 0; 7], []).
Proof. vm_compute. reflexivity. Qed.


(** For every [renderChar] call that passes the bounds check with
    [dx >= 0], on a renderer built by the constructor from a byte atlas, and
    for a pixel [(x, y)] of the cell whose sample lies in the atlas: R, G and
    B are each the background channel plus the difference to the foreground
    channel times the softened source sample over 255, as the clamped byte
    array stores it; no alpha byte of the target changes; a source sample of
    0 gives exactly the background's channel; and the softened sample never
    exceeds 204 (212 with the lighter font), which is what a source sample
    of 255 becomes. *)
Theorem renderChar_softened_blend (charData : JS.Uint8ClampedArray) (scale : Z)
  (target : ImageData) (dx dy chCode : Z) (color backgroundColor : RGBA8.t)
  (useLighterFont : bool) (x y k s : Z) :
  let this := constructor charData scale in
  let sourceOffset :=
    _getChIndex chCode * charWidth this * charHeight this
    + y * charWidth this + x in
  let softened := soften_byte (ratio_of useLighterFont) s in
  let stored :=
    data (fst (renderChar this target dx dy chCode color backgroundColor
                 useLighterFont)) in
  let i := Z.to_nat (4 * ((dy + y) * width target + (dx + x)) + k) in
  Forall JS.is_byte charData ->
  RGBA8.valid color -> RGBA8.valid backgroundColor -> well_sized target ->
  0 <= dx -> dx + charWidth this <= width target ->
  dy + charHeight this <= height target ->
  0 <= x < charWidth this -> 0 <= y < charHeight this ->
  0 <= dy + y -> 0 <= k < 3 ->
  0 <= sourceOffset -> charData !! Z.to_nat sourceOffset = Some s ->
  stored !! i =
    Some (blend_byte (channel backgroundColor k) (channel color k)
            (JS.number_of_Z softened)) /\
  (forall p : nat, stored !! (4 * p + 3)%nat = data target !! (4 * p + 3)%nat) /\
  (s = 0 -> stored !! i = Some (channel backgroundColor k)) /\
  softened <= max_softened useLighterFont /\
  (s = 255 -> softened = max_softened useLighterFont).
Proof.
  cbv zeta.
  intros Hbytes Hc Hb Hsize Hdx Hw Hh Hx Hy Hrow Hk Hso Hs.
  assert (Hpixel := renderChar_pixel (constructor charData scale) target dx dy
            chCode color backgroundColor useLighterFont x y k
            Hsize Hdx Hw Hh Hx Hy Hrow Hk).
  rewrite (atlas_lookup charData scale useLighterFont _ s Hso Hs) in Hpixel.
  fold (ratio_of useLighterFont) in Hpixel.
  assert (Hbyte : JS.is_byte s)
    by exact (proj1 (Forall_lookup _ _) Hbytes _ _ Hs).
  split; [exact Hpixel |].
  split; [intros p; apply renderChar_alpha_untouched |].
  split; [| split].
  - intros ->. rewrite Hpixel. f_equal.
    replace (soften_byte (ratio_of useLighterFont) 0) with 0
      by (destruct useLighterFont; vm_compute; reflexivity).
    apply blend_byte_endpoints; now apply channel_is_byte.
  - destruct (soften_byte_le s Hbyte) as [Hn Hl].
    destruct useLighterFont; unfold ratio_of, max_softened; lia.
  - intros ->. destruct useLighterFont; vm_compute; reflexivity.
Qed.

Lemma renderChar_softened_blend_witness :
  let target := blank_target 1 2 in
  let stored :=
    data (fst (renderChar sample_renderer target 0 0 32 white black false)) in
  stored !! Z.to_nat (4 * ((0 + 1) * width target + (0 + 0)) + 1) =
    Some (blend_byte (channel black 1) (channel white 1)
            (JS.number_of_Z (soften_byte (ratio_of false) 255))) /\
  (forall p : nat, stored !! (4 * p + 3)%nat = data target !! (4 * p + 3)%nat) /\
  (255 = 0 ->
   stored !! Z.to_nat (4 * ((0 + 1) * width target + (0 + 0)) + 1) =
     Some (channel black 1)) /\
  soften_byte (ratio_of false) 255 <= max_softened false /\
  (255 = 255 -> soften_byte (ratio_of false) 255 = max_softened false).
Proof.
  cbv zeta.
  assert (Hbytes : Forall JS.is_byte full_atlas).
  { apply Forall_forall. intros b Hin.
    apply elem_of_replicate in Hin as [-> _]. unfold JS.is_byte. lia. }
  assert (Hwhite : RGBA8.valid white) by (vm_compute; intuition discriminate).
  assert (Hblack : RGBA8.valid black) by (vm_compute; intuition discriminate).
  assert (Hsize : well_sized (blank_target 1 2)) by (vm_compute; reflexivity).
  assert (Hw : 0 + charWidth sample_renderer <= width (blank_target 1 2))
    by (vm_compute; discriminate).
  assert (Hh : 0 + charHeight sample_renderer <= height (blank_target 1 2))
    by (vm_compute; discriminate).
  assert (Hx : 0 <= 0 < charWidth sample_renderer)
    by (vm_compute; split; [discriminate | reflexivity]).
  assert (Hy : 0 <= 1 < charHeight sample_renderer)
    by (vm_compute; split; [discriminate | reflexivity]).
  assert (Hso : 0 <= _getChIndex 32 * charWidth sample_renderer
                     * charHeight sample_renderer
                     + 1 * charWidth sample_renderer + 0)
    by (vm_compute; discriminate).
  exact (renderChar_softened_blend full_atlas 1 (blank_target 1 2) 0 0 32 white black
           false 0 1 1 255 Hbytes Hwhite Hblack Hsize ltac:(lia) Hw Hh Hx Hy
           ltac:(lia) ltac:(lia) Hso eq_refl).
Defined.

(** * Further properties *)

(** ** The colour tracker: lookups after a rebuild *)

Lemma lookup_map_Some {A B : Type} (f : A -> B) (l : list A) :
  forall (i : nat) (x : A), l !! i = Some x -> map f l !! i = Some (f x).
Proof.
  induction l as [| y l IH]; intros [| i] x; cbn; try discriminate.
  - now intros [= ->].
  - apply IH.
Qed.

Lemma palette_of_lookup (colorMap : list Color.t) (i : nat) (c : Color.t) :
  (1 <= i)%nat -> colorMap !! i = Some c ->
  palette_of colorMap !! i = Some (Some (toRGBA8 c)).
Proof.
  intros Hi Hc. destruct i as [| i]; [lia |].
  unfold palette_of. cbn [lookup list_lookup].
  apply (lookup_map_Some (fun c => Some (toRGBA8 c))).
  now rewrite lookup_drop.
Qed.

Lemma _updateColorMap_present (colorMap : list Color.t) (background : Color.t)
  (this : MinimapTokensColorTracker) :
  colorMap !! Z.to_nat ColorId.DefaultBackground = Some background ->
  _updateColorMap (Some colorMap) this =
  (Normal,
   mkTracker (palette_of colorMap)
     (PrimFloat.leb 0.5 (Color.getRelativeLuminance background))
     (_onDidChange this
      ++ [(palette_of colorMap,
           PrimFloat.leb 0.5 (Color.getRelativeLuminance background))])).
Proof.
  intros Hbg. unfold _updateColorMap. now rewrite Hbg, _updateColorMap_palette.
Qed.

Lemma _updateColorMap_short (colorMap : list Color.t)
  (this : MinimapTokensColorTracker) :
  (length colorMap <= Z.to_nat ColorId.DefaultBackground)%nat ->
  _updateColorMap (Some colorMap) this =
  (TypeError,
   mkTracker (palette_of colorMap) (_backgroundIsLight this) (_onDidChange this)).
Proof.
  intros Hlen. unfold _updateColorMap.
  rewrite (proj2 (lookup_ge_None colorMap _) Hlen).
  now rewrite _updateColorMap_palette.
Qed.

(** X1.  After a rebuild from a colour map with an entry for the default
    background, [getColor] of an identifier from 1 up to the last index of
    the map returns the conversion of the map's entry at that index. *)
Theorem getColor_after_rebuild (colorMap : list Color.t)
  (this : MinimapTokensColorTracker) (colorId : Z) (c : Color.t) :
  (2 < length colorMap)%nat ->
  1 <= colorId ->
  colorMap !! Z.to_nat colorId = Some c ->
  getColor (snd (_updateColorMap (Some colorMap) this)) colorId
  = Some (toRGBA8 c).
Proof.
  intros Hlen Hid Hc.
  destruct (lookup_lt_is_Some_2 colorMap 2 Hlen) as [background Hbg].
  rewrite (_updateColorMap_present _ _ _ Hbg). cbn [snd].
  unfold getColor. cbn [_colors].
  assert (Hlt : (Z.to_nat colorId < length colorMap)%nat)
    by (eapply lookup_lt_Some, Hc).
  rewrite palette_of_length.
  destruct (Z.ltb_spec colorId 1); [lia |].
  destruct (Z.geb_spec colorId (Z.of_nat (Nat.max 1 (length colorMap)))); [lia |].
  cbn [orb]. unfold JS.array_get.
  destruct (Z.ltb_spec colorId 0); [lia |].
  rewrite (palette_of_lookup colorMap (Z.to_nat colorId) c ltac:(lia) Hc).
  reflexivity.
Qed.

Lemma getColor_after_rebuild_witness :
  (2 < length sample_colorMap)%nat /\
  1 <= 1 /\
  getColor (snd (_updateColorMap (Some sample_colorMap) fresh_tracker)) 1
  = Some (toRGBA8 (Color.mk (Color.mkRGBA 0 0 0 1) 0)).
Proof.
  assert (Hlen : (2 < length sample_colorMap)%nat) by (cbn; lia).
  split; [exact Hlen |]. split; [lia |].
  exact (getColor_after_rebuild sample_colorMap fresh_tracker 1 _ Hlen
           ltac:(lia) eq_refl).
Defined.

(** X2.  After such a rebuild, [getColor] of every identifier below 1
    (identifier 0 included: the sentinel of the palette is never returned)
    or past the end of the map returns the conversion of the map's
    default-background entry. *)
Theorem getColor_falls_back_to_background (colorMap : list Color.t)
  (this : MinimapTokensColorTracker) (colorId : Z) (background : Color.t) :
  colorMap !! Z.to_nat ColorId.DefaultBackground = Some background ->
  colorId < 1 \/ Z.of_nat (length colorMap) <= colorId ->
  getColor (snd (_updateColorMap (Some colorMap) this)) colorId
  = Some (toRGBA8 background).
Proof.
  intros Hbg Hout.
  assert (Hlen : (2 < length colorMap)%nat) by (eapply lookup_lt_Some, Hbg).
  rewrite (_updateColorMap_present _ _ _ Hbg). cbn [snd].
  rewrite getColor_substitutes.
  - cbn [_colors]. unfold JS.array_get.
    change (ColorId.DefaultBackground <? 0) with false.
    now rewrite (palette_of_lookup colorMap (Z.to_nat ColorId.DefaultBackground)
                   background
                   ltac:(change (Z.to_nat ColorId.DefaultBackground) with 2%nat; lia)
                   Hbg).
  - cbn [_colors]. rewrite palette_of_length. lia.
Qed.

Lemma getColor_falls_back_to_background_witness :
  sample_colorMap !! Z.to_nat ColorId.DefaultBackground
    = Some (Color.mk (Color.mkRGBA 255 255 255 1) 1) /\
  (0 < 1 \/ Z.of_nat (length sample_colorMap) <= 0) /\
  getColor (snd (_updateColorMap (Some sample_colorMap) fresh_tracker)) 0
  = Some (toRGBA8 (Color.mk (Color.mkRGBA 255 255 255 1) 1)).
Proof.
  split; [reflexivity |].
  assert (Hout : 0 < 1 \/ Z.of_nat (length sample_colorMap) <= 0) by (left; lia).
  split; [exact Hout |].
  exact (getColor_falls_back_to_background sample_colorMap fresh_tracker 0 _
           eq_refl Hout).
Defined.

(** X3.  A rebuild from a colour map that is present but has no entry for the
    default background (fewer than three entries, the empty map included)
    ends in a TypeError after the palette has been replaced: the tracker is
    left with the new palette and the old lightness flag, and no event is
    fired. *)
Theorem rebuild_from_short_map_throws (colorMap : list Color.t)
  (this : MinimapTokensColorTracker) :
  (length colorMap <= 2)%nat ->
  let result := _updateColorMap (Some colorMap) this in
  fst result = TypeError /\
  _colors (snd result) = palette_of colorMap /\
  backgroundIsLight (snd result) = backgroundIsLight this /\
  _onDidChange (snd result) = _onDidChange this.
Proof.
  intros Hlen. cbv zeta.
  rewrite (_updateColorMap_short colorMap this Hlen). repeat split.
Qed.

Lemma rebuild_from_short_map_throws_witness :
  let before := mkTracker [Some RGBA8.Empty] true [] in
  (length short_colorMap <= 2)%nat /\
  let result := _updateColorMap (Some short_colorMap) before in
  fst result = TypeError /\
  _colors (snd result) = palette_of short_colorMap /\
  backgroundIsLight (snd result) = backgroundIsLight before /\
  _onDidChange (snd result) = _onDidChange before.
Proof.
  cbv zeta.
  assert (Hlen : (length short_colorMap <= 2)%nat) by (cbn; lia).
  split; [exact Hlen |].
  exact (rebuild_from_short_map_throws short_colorMap
           (mkTracker [Some RGBA8.Empty] true []) Hlen).
Defined.

(** The palette after a rebuild is a function of the colour map alone. *)
Lemma _updateColorMap_colors (colorMap : option (list Color.t))
  (this : MinimapTokensColorTracker) :
  _colors (snd (_updateColorMap colorMap this)) = current_palette colorMap.
Proof.
  destruct colorMap as [colorMap |]; [| reflexivity]. cbn [current_palette].
  destruct (colorMap !! Z.to_nat ColorId.DefaultBackground) as [background |] eqn:Hbg.
  - now rewrite (_updateColorMap_present _ _ _ Hbg).
  - now rewrite _updateColorMap_short by (now apply lookup_ge_None).
Qed.

(** X4.  Whatever the colour map (absent, short or full) and whatever the
    tracker held, after a rebuild the palette starts with the sentinel, has
    no holes, has as many entries as the map (one, when the map is absent or
    empty), and holds at every index from 1 on the conversion of the map's
    entry at that index; entry 0 of the map is never converted, and nothing
    of the old palette survives: the palette is the same whatever tracker
    the rebuild started from. *)
Theorem palette_shape_after_rebuild (colorMap : option (list Color.t))
  (this other : MinimapTokensColorTracker) :
  let palette := _colors (snd (_updateColorMap colorMap this)) in
  palette !! 0%nat = Some (Some RGBA8.Empty) /\
  Forall is_Some palette /\
  length palette = Nat.max 1 (length (default [] colorMap)) /\
  (forall (i : nat) (c : Color.t),
     (1 <= i)%nat -> default [] colorMap !! i = Some c ->
     palette !! i = Some (Some (toRGBA8 c))) /\
  palette = _colors (snd (_updateColorMap colorMap other)).
Proof.
  cbv zeta. rewrite !_updateColorMap_colors.
  destruct colorMap as [colorMap |]; cbn [default current_palette].
  - split; [reflexivity |]. split; [apply palette_of_dense |].
    split; [apply palette_of_length |]. split; [| reflexivity].
    intros i c Hi Hc. now apply palette_of_lookup.
  - split; [reflexivity |].
    split; [constructor; [by eexists | constructor] |].
    split; [reflexivity |]. split; [| reflexivity].
    intros i c _ Hc. now rewrite lookup_nil in Hc.
Qed.

(** ** The registry listener *)

(** What one notification does to the deliveries of the change event. *)
Lemma onTokenizationRegistryChange_events (n : notification)
  (this : MinimapTokensColorTracker) :
  length (_onDidChange (snd (onTokenizationRegistryChange (fst n) (snd n) this)))
  = (length (_onDidChange this) + if fires n then 1 else 0)%nat.
Proof.
  destruct n as [[|] [colorMap |]]; unfold onTokenizationRegistryChange, fires;
    cbn [fst snd andb]; try (cbn; lia).
  destruct (Nat.ltb_spec (Z.to_nat ColorId.DefaultBackground) (length colorMap))
    as [Hlt | Hge].
  - destruct (lookup_lt_is_Some_2 colorMap _ Hlt) as [background Hbg].
    rewrite (_updateColorMap_present _ _ _ Hbg). cbn [snd _onDidChange].
    rewrite length_app. reflexivity.
  - rewrite (_updateColorMap_short _ _ Hge). cbn. lia.
Qed.

Lemma deliver_app (ns1 ns2 : list notification) (this : MinimapTokensColorTracker) :
  deliver (ns1 ++ ns2) this = deliver ns2 (deliver ns1 this).
Proof.
  revert this. induction ns1 as [| n ns1 IH]; intros this; [reflexivity |].
  cbn [app deliver]. apply IH.
Qed.

Lemma deliver_unflagged (ns : list notification) (this : MinimapTokensColorTracker) :
  Forall (fun n => fst n = false) ns -> deliver ns this = this.
Proof.
  induction 1 as [| n ns Hn _ IH]; [reflexivity |].
  cbn [deliver]. rewrite Hn. exact IH.
Qed.

(** X5.  Over any run of registry notifications, the tracker's change event
    fires once for every notification that is flagged [changedColorMap] and
    finds a colour map with an entry for the default background, and for no
    other: not for an unflagged notification, not when the map is absent, not
    when the rebuild throws. *)
Theorem deliver_event_count (ns : list notification)
  (this : MinimapTokensColorTracker) :
  length (_onDidChange (deliver ns this))
  = (length (_onDidChange this) + length (List.filter fires ns))%nat.
Proof.
  revert this. induction ns as [| n ns IH]; intros this.
  - cbn. lia.
  - cbn [deliver List.filter]. rewrite IH, onTokenizationRegistryChange_events.
    destruct (fires n); cbn [length]; lia.
Qed.

(** X6.  Whatever notifications came before, and whatever the tracker held,
    once a flagged notification has found a colour map with an entry for the
    default background, and only unflagged ones have followed, the tracker
    holds the palette of that map and the lightness of its default
    background, and every lookup gives a colour. *)
Theorem deliver_reflects_last_change (before after : list notification)
  (colorMap : list Color.t) (background : Color.t)
  (this : MinimapTokensColorTracker) :
  colorMap !! Z.to_nat ColorId.DefaultBackground = Some background ->
  Forall (fun n => fst n = false) after ->
  let final := deliver (before ++ (true, Some colorMap) :: after) this in
  _colors final = palette_of colorMap /\
  backgroundIsLight final
  = PrimFloat.leb 0.5 (Color.getRelativeLuminance background) /\
  forall colorId, is_Some (getColor final colorId).
Proof.
  intros Hbg Hafter. cbv zeta.
  rewrite deliver_app. cbn [deliver fst snd].
  unfold onTokenizationRegistryChange.
  rewrite (_updateColorMap_present _ _ _ Hbg). cbn [snd].
  rewrite (deliver_unflagged _ _ Hafter).
  split; [reflexivity |]. split; [reflexivity |].
  intros colorId. apply getColor_defined; cbn [_colors].
  - apply palette_of_dense.
  - rewrite palette_of_length.
    apply lookup_lt_Some in Hbg. unfold ColorId.DefaultBackground in *. lia.
Qed.

Lemma deliver_reflects_last_change_witness :
  let background := Color.mk (Color.mkRGBA 255 255 255 1) 1 in
  let before : list notification :=
    [(true, Some short_colorMap); (false, None); (true, None)] in
  let after : list notification := [(false, Some short_colorMap)] in
  sample_colorMap !! Z.to_nat ColorId.DefaultBackground = Some background /\
  Forall (fun n : notification => fst n = false) after /\
  let final :=
    deliver (before ++ (true, Some sample_colorMap) :: after) fresh_tracker in
  _colors final = palette_of sample_colorMap /\
  backgroundIsLight final
  = PrimFloat.leb 0.5 (Color.getRelativeLuminance background) /\
  forall colorId, is_Some (getColor final colorId).
Proof.
  cbv zeta.
  assert (Hafter : Forall (fun n : notification => fst n = false)
                     [(false, Some short_colorMap)])
    by (repeat constructor).
  split; [reflexivity |]. split; [exact Hafter |].
  exact (deliver_reflects_last_change
           [(true, Some short_colorMap); (false, None); (true, None)]
           [(false, Some short_colorMap)] sample_colorMap
           (Color.mk (Color.mkRGBA 255 255 255 1) 1) fresh_tracker
           eq_refl Hafter).
Defined.

Lemma _updateColorMap_events_usable (colorMap : option (list Color.t))
  (this : MinimapTokensColorTracker) :
  Forall (fun obs : observed => usable (fst obs)) (_onDidChange this) ->
  Forall (fun obs : observed => usable (fst obs))
    (_onDidChange (snd (_updateColorMap colorMap this))).
Proof.
  intros Hlog. destruct colorMap as [colorMap |]; [| exact Hlog].
  destruct (colorMap !! Z.to_nat ColorId.DefaultBackground) as [background |] eqn:Hbg.
  - rewrite (_updateColorMap_present _ _ _ Hbg). cbn [snd _onDidChange].
    apply Forall_app. split; [exact Hlog |].
    constructor; [| constructor]. cbn [fst]. split.
    + apply palette_of_dense.
    + rewrite palette_of_length. apply lookup_lt_Some in Hbg.
      unfold ColorId.DefaultBackground in *. lia.
  - rewrite _updateColorMap_short by (now apply lookup_ge_None). exact Hlog.
Qed.

(** X7.  From construction on and over any run of notifications, every
    delivery of the change event shows its listeners a palette on which
    [getColor] gives a colour for every identifier: the palettes that are too
    short for the default background (after an absent or a short colour map)
    are never announced. *)
Theorem events_show_usable_palettes (colorMap : option (list Color.t))
  (ns : list notification) (obs : observed) (colorId : Z) :
  obs ∈ _onDidChange (deliver ns (snd (MinimapTokensColorTracker_new colorMap))) ->
  is_Some (getColor (mkTracker (fst obs) (snd obs) []) colorId).
Proof.
  intros Hin.
  assert (Hall : forall (ns : list notification) this,
    Forall (fun obs : observed => usable (fst obs)) (_onDidChange this) ->
    Forall (fun obs : observed => usable (fst obs)) (_onDidChange (deliver ns this))).
  { clear. induction ns as [| n ns IH]; intros this Hlog; [exact Hlog |].
    cbn [deliver]. apply IH. unfold onTokenizationRegistryChange.
    destruct (fst n); [now apply _updateColorMap_events_usable | exact Hlog]. }
  assert (Hlog := Hall ns (snd (MinimapTokensColorTracker_new colorMap))
            (_updateColorMap_events_usable colorMap fresh_tracker
               (List.Forall_nil _))).
  destruct (proj1 (Forall_forall _ _) Hlog obs Hin) as [Hdense Hlen].
  now apply getColor_defined.
Qed.

Lemma events_show_usable_palettes_witness :
  let obs : observed := (palette_of sample_colorMap, true) in
  obs ∈ _onDidChange
          (deliver [(true, None); (true, Some sample_colorMap)]
             (snd (MinimapTokensColorTracker_new (Some sample_colorMap)))) /\
  is_Some (getColor (mkTracker (fst obs) (snd obs) []) 7).
Proof.
  cbv zeta.
  assert (Hin : (palette_of sample_colorMap, true)
                ∈ _onDidChange
                    (deliver [(true, None); (true, Some sample_colorMap)]
                       (snd (MinimapTokensColorTracker_new (Some sample_colorMap)))))
    by (apply elem_of_cons; left; reflexivity).
  split; [exact Hin |].
  exact (events_show_usable_palettes (Some sample_colorMap)
           [(true, None); (true, Some sample_colorMap)]
           (palette_of sample_colorMap, true) 7 Hin).
Defined.

(** ** The shared instance *)

Lemma step_keeps_palette (s : registry_step) (w : World) :
  (forall this, _INSTANCE w = Some this ->
                _colors this = current_palette (registry_colorMap w)) ->
  forall this, _INSTANCE (step s w) = Some this ->
               _colors this = current_palette (registry_colorMap (step s w)).
Proof.
  intros Hinv this. destruct w as [colorMap0 instance]. cbn in Hinv.
  destruct s as [colorMap | |]; cbn [step _INSTANCE registry_colorMap].
  - destruct instance as [old |]; cbn [option_map]; [| discriminate].
    intros [= <-]. unfold onTokenizationRegistryChange.
    apply _updateColorMap_colors.
  - destruct instance as [old |]; cbn [option_map]; [| discriminate].
    intros [= <-]. now apply Hinv.
  - unfold getInstance. destruct instance as [old |]; cbn [snd].
    + intros [= <-]. now apply Hinv.
    + unfold MinimapTokensColorTracker_new.
      pose proof (_updateColorMap_colors colorMap0 fresh_tracker) as Hcolors.
      destruct (_updateColorMap colorMap0 fresh_tracker) as [[|] built];
        cbn [snd] in *; [| discriminate].
      now intros [= <-].
Qed.

Lemma step_keeps_instance (s : registry_step) (w : World) :
  is_Some (_INSTANCE w) -> is_Some (_INSTANCE (step s w)).
Proof.
  intros [this Hthis]. destruct w as [colorMap0 instance].
  cbn in Hthis. subst instance.
  destruct s; cbn; by eexists.
Qed.

(** X8.  Over any sequence of colour-map changes, other registry changes and
    [getInstance] calls, starting without an instance: whenever the shared
    instance exists, its palette is the one a rebuild installs for the
    colour map the registry holds now; a further [getInstance] call returns
    it and changes nothing; and no later step removes the instance. *)
Theorem shared_instance_follows_registry (colorMap0 : option (list Color.t))
  (steps more : list registry_step) (this : MinimapTokensColorTracker) :
  let w := run steps (mkWorld colorMap0 None) in
  _INSTANCE w = Some this ->
  _colors this = current_palette (registry_colorMap w) /\
  getInstance (registry_colorMap w) (_INSTANCE w) = (Normal, Some this) /\
  step GetInstance w = w /\
  is_Some (_INSTANCE (run more w)).
Proof.
  cbv zeta. intros Hthis.
  assert (Hinv : forall steps w,
    (forall this, _INSTANCE w = Some this ->
                  _colors this = current_palette (registry_colorMap w)) ->
    forall this, _INSTANCE (run steps w) = Some this ->
                 _colors this = current_palette (registry_colorMap (run steps w))).
  { clear. induction steps as [| s steps IH]; intros w Hw; [exact Hw |].
    cbn [run]. apply IH. now apply step_keeps_palette. }
  assert (Hkeep : forall steps w,
    is_Some (_INSTANCE w) -> is_Some (_INSTANCE (run steps w))).
  { clear. induction steps as [| s steps IH]; intros w Hw; [exact Hw |].
    cbn [run]. apply IH. now apply step_keeps_instance. }
  split; [apply (Hinv steps (mkWorld colorMap0 None)); [discriminate | exact Hthis] |].
  split; [now rewrite Hthis |].
  split; [| apply Hkeep; rewrite Hthis; by eexists].
  destruct (run steps (mkWorld colorMap0 None)) as [colorMap instance].
  cbn in Hthis. subst instance. reflexivity.
Qed.

Lemma shared_instance_follows_registry_witness :
  let steps :=
    [GetInstance; SetColorMap (Some short_colorMap); GetInstance; OtherChange;
     SetColorMap (Some sample_colorMap); GetInstance] in
  let w := run steps (mkWorld None None) in
  exists this,
    _INSTANCE w = Some this /\
    _colors this = current_palette (registry_colorMap w) /\
    getInstance (registry_colorMap w) (_INSTANCE w) = (Normal, Some this) /\
    step GetInstance w = w /\
    is_Some (_INSTANCE (run [SetColorMap None; OtherChange] w)) /\
    length (_onDidChange this) = 1%nat.
Proof.
  cbv zeta.
  destruct (_INSTANCE
              (run [GetInstance; SetColorMap (Some short_colorMap); GetInstance;
                    OtherChange; SetColorMap (Some sample_colorMap); GetInstance]
                 (mkWorld None None))) as [this |] eqn:Hthis;
    [| vm_compute in Hthis; discriminate].
  exists this. split; [reflexivity |].
  destruct (shared_instance_follows_registry None
              [GetInstance; SetColorMap (Some short_colorMap); GetInstance;
               OtherChange; SetColorMap (Some sample_colorMap); GetInstance]
              [SetColorMap None; OtherChange] this Hthis)
    as (Hpalette & Hget & Hstep & Hsome).
  rewrite Hthis in Hget.
  repeat (split; [assumption |]).
  vm_compute in Hthis. injection Hthis as <-. reflexivity.
Defined.

(** ** The render operations: how calls compose *)

Section WritesCompose.

Implicit Types (ws : list write) (dest : JS.Uint8ClampedArray).

(** Writes over writes at the same places leave no trace of the first. *)
Lemma apply_writes_overwrite ws1 ws2 dest :
  (forall j v, (j, v) ∈ ws1 -> exists v', (j, v') ∈ ws2) ->
  apply_writes ws2 (apply_writes ws1 dest) = apply_writes ws2 dest.
Proof.
  intros Hcover. apply list_eq. intros i. rewrite !apply_writes_lookup.
  destruct (dest !! i) as [old |]; [| reflexivity].
  destruct (last_write ws2 i) as [v2 |] eqn:H2; [reflexivity |].
  destruct (last_write ws1 i) as [v1 |] eqn:H1; [| reflexivity].
  exfalso. apply last_write_elem in H1.
  destruct (Hcover _ _ H1) as [v' Hin].
  exact (last_write_None_inv ws2 i H2 v' Hin).
Qed.

(** Writes at different places can be performed in either order. *)
Lemma apply_writes_commute ws1 ws2 dest :
  (forall j v1 v2, (j, v1) ∈ ws1 -> (j, v2) ∈ ws2 -> False) ->
  apply_writes ws2 (apply_writes ws1 dest)
  = apply_writes ws1 (apply_writes ws2 dest).
Proof.
  intros Hdisjoint. apply list_eq. intros i. rewrite !apply_writes_lookup.
  destruct (dest !! i) as [old |]; [| reflexivity].
  destruct (last_write ws1 i) as [v1 |] eqn:H1;
    destruct (last_write ws2 i) as [v2 |] eqn:H2; try reflexivity.
  exfalso. apply last_write_elem in H1, H2. exact (Hdisjoint _ _ _ H1 H2).
Qed.

End WritesCompose.

Lemma renderChar_render_cell (this : MinimapCharRenderer) (target : ImageData)
  (dx dy chCode : Z) (color backgroundColor : RGBA8.t) (useLighterFont : bool) :
  renderChar this target dx dy chCode color backgroundColor useLighterFont
  = render_cell (render_px (atlas this useLighterFont) color backgroundColor)
      (_getChIndex chCode * charWidth this * charHeight this)
      this target dx dy.
Proof. apply renderChar_as_writes. Qed.

Lemma blockRenderChar_render_cell (this : MinimapCharRenderer)
  (target : ImageData) (dx dy : Z) (color backgroundColor : RGBA8.t)
  (useLighterFont : bool) :
  blockRenderChar this target dx dy color backgroundColor useLighterFont
  = render_cell (block_px color backgroundColor) 0 this target dx dy.
Proof. apply blockRenderChar_as_writes. Qed.

Section RenderCell.

Variable this : MinimapCharRenderer.
Variable target : ImageData.

(** Rendering a cell over a rendering of the same cell. *)
Lemma render_cell_overwrite (px1 px2 : Z -> Z -> Z) (so1 so2 dx dy : Z) :
  render_cell px2 so2 this (fst (render_cell px1 so1 this target dx dy)) dx dy
  = render_cell px2 so2 this target dx dy.
Proof.
  unfold render_cell.
  destruct (rejected this target dx dy) eqn:Hcheck; cbn [fst].
  - now rewrite Hcheck.
  - unfold rejected in *. cbn [width height data]. rewrite Hcheck.
    f_equal. f_equal. apply apply_writes_overwrite.
    intros j v Hin. apply cell_write_position in Hin
      as (x & y & k & Hx & Hy & Hk & -> & _).
    eexists. apply cell_write_position. exists x, y, k.
    repeat split; lia.
Qed.

(** Rendering two cells that share no pixel, in either order. *)
Lemma render_cell_commute (px1 px2 : Z -> Z -> Z) (so1 so2 dx1 dy1 dx2 dy2 : Z) :
  0 <= dx1 -> dx1 + charWidth this <= width target ->
  dy1 + charHeight this <= height target ->
  0 <= dx2 -> dx2 + charWidth this <= width target ->
  dy2 + charHeight this <= height target ->
  apart this dx1 dy1 dx2 dy2 ->
  render_cell px2 so2 this (fst (render_cell px1 so1 this target dx1 dy1)) dx2 dy2
  = render_cell px1 so1 this (fst (render_cell px2 so2 this target dx2 dy2)) dx1 dy1.
Proof.
  intros Hdx1 Hw1 Hh1 Hdx2 Hw2 Hh2 Hapart.
  assert (Hc1 : rejected this target dx1 dy1 = false)
    by (apply rejected_false; auto).
  assert (Hc2 : rejected this target dx2 dy2 = false)
    by (apply rejected_false; auto).
  unfold render_cell. rewrite Hc1, Hc2. cbn [fst].
  unfold rejected in *. cbn [width height data]. rewrite Hc1, Hc2.
  f_equal. f_equal. apply apply_writes_commute.
  intros j v1 v2 Hin1 Hin2.
  apply cell_write_position in Hin1 as (x1 & y1 & k1 & Hx1 & Hy1 & Hk1 & -> & _).
  apply cell_write_position in Hin2 as (x2 & y2 & k2 & Hx2 & Hy2 & Hk2 & Heq & _).
  destruct (byte_position_unique (width target) 0 0
              (dx1 + x1) (dx2 + x2) (dy1 + y1) (dy2 + y2) k1 k2)
    as (Hx & Hy & _); try lia.
  unfold apart in Hapart. lia.
Qed.

End RenderCell.

(** X9.  The last render call at a cell determines the target: a
    [renderChar] or [blockRenderChar] call at the place of an earlier call of
    either kind, with any glyph, colours and font weight, gives the result it
    gives on the untouched target, also when both are rejected.  In
    particular [blockRenderChar] is idempotent, and a glyph drawn over a
    block leaves nothing of the block. *)
Theorem last_render_wins (this : MinimapCharRenderer) (target : ImageData)
  (dx dy chCode1 chCode2 : Z) (color1 background1 color2 background2 : RGBA8.t)
  (lighter1 lighter2 : bool) :
  let char1 := renderChar this target dx dy chCode1 color1 background1 lighter1 in
  let block1 := blockRenderChar this target dx dy color1 background1 lighter1 in
  renderChar this (fst char1) dx dy chCode2 color2 background2 lighter2
  = renderChar this target dx dy chCode2 color2 background2 lighter2 /\
  renderChar this (fst block1) dx dy chCode2 color2 background2 lighter2
  = renderChar this target dx dy chCode2 color2 background2 lighter2 /\
  blockRenderChar this (fst char1) dx dy color2 background2 lighter2
  = blockRenderChar this target dx dy color2 background2 lighter2 /\
  blockRenderChar this (fst block1) dx dy color2 background2 lighter2
  = blockRenderChar this target dx dy color2 background2 lighter2.
Proof.
  cbv zeta.
  rewrite !(renderChar_render_cell this target),
          !(blockRenderChar_render_cell this target).
  rewrite !renderChar_render_cell, !blockRenderChar_render_cell.
  repeat split; apply render_cell_overwrite.
Qed.

(** X10.  Two render calls (glyph or block, in any combination) at cells that
    share no pixel, both accepted by the bounds check with [dx >= 0], can be
    made in either order: the target ends up the same. *)
Theorem disjoint_renders_commute (this : MinimapCharRenderer)
  (target : ImageData) (dx1 dy1 dx2 dy2 chCode1 chCode2 : Z)
  (color1 background1 color2 background2 : RGBA8.t) (lighter1 lighter2 : bool) :
  0 <= dx1 -> dx1 + charWidth this <= width target ->
  dy1 + charHeight this <= height target ->
  0 <= dx2 -> dx2 + charWidth this <= width target ->
  dy2 + charHeight this <= height target ->
  apart this dx1 dy1 dx2 dy2 ->
  let char1 t := renderChar this t dx1 dy1 chCode1 color1 background1 lighter1 in
  let char2 t := renderChar this t dx2 dy2 chCode2 color2 background2 lighter2 in
  let block2 t := blockRenderChar this t dx2 dy2 color2 background2 lighter2 in
  char2 (fst (char1 target)) = char1 (fst (char2 target)) /\
  block2 (fst (char1 target)) = char1 (fst (block2 target)).
Proof.
  intros Hdx1 Hw1 Hh1 Hdx2 Hw2 Hh2 Hapart. cbv beta zeta.
  rewrite !(renderChar_render_cell this target),
          !(blockRenderChar_render_cell this target).
  rewrite !renderChar_render_cell, !blockRenderChar_render_cell.
  split; now apply render_cell_commute.
Qed.

Lemma disjoint_renders_commute_witness :
  let target := blank_target 2 3 in
  let char1 t := renderChar sample_renderer t 0 (-1) 65 white black false in
  let char2 t := renderChar sample_renderer t 1 0 66 black white true in
  let block2 t := blockRenderChar sample_renderer t 1 0 black white true in
  apart sample_renderer 0 (-1) 1 0 /\
  char2 (fst (char1 target)) = char1 (fst (char2 target)) /\
  block2 (fst (char1 target)) = char1 (fst (block2 target)).
Proof.
  cbv zeta.
  assert (Hapart : apart sample_renderer 0 (-1) 1 0)
    by (left; vm_compute; discriminate).
  split; [exact Hapart |].
  exact (disjoint_renders_commute sample_renderer (blank_target 2 3)
           0 (-1) 1 0 65 66 white black black white false true
           ltac:(lia) ltac:(vm_compute; discriminate)
           ltac:(vm_compute; discriminate)
           ltac:(lia) ltac:(vm_compute; discriminate)
           ltac:(vm_compute; discriminate) Hapart).
Defined.

(** ** The render operations: what they never do *)

(** X11.  Neither render operation ever resizes the target: width, height and
    the number of bytes of the buffer are those of the target given, for
    every call, accepted or rejected; a well-sized target stays
    well-sized. *)
Theorem render_preserves_size (this : MinimapCharRenderer) (target : ImageData)
  (dx dy chCode : Z) (color backgroundColor : RGBA8.t) (useLighterFont : bool) :
  let char := fst (renderChar this target dx dy chCode color backgroundColor
                     useLighterFont) in
  let block := fst (blockRenderChar this target dx dy color backgroundColor
                      useLighterFont) in
  (width char = width target /\ height char = height target /\
   length (data char) = length (data target)) /\
  (width block = width target /\ height block = height target /\
   length (data block) = length (data target)).
Proof.
  cbv zeta. rewrite renderChar_render_cell, blockRenderChar_render_cell.
  unfold render_cell.
  destruct (rejected this target dx dy); cbn [fst width height data];
    rewrite ?apply_writes_length; repeat split.
Qed.

(** X12.  Neither render operation ever writes an alpha byte: byte [4 p + 3]
    of the target is unchanged for every [p], whatever the coordinates
    (negative ones included, where colour bytes of other pixels can be
    hit). *)
Theorem render_never_writes_alpha (this : MinimapCharRenderer)
  (target : ImageData) (dx dy chCode : Z) (color backgroundColor : RGBA8.t)
  (useLighterFont : bool) (p : nat) :
  data (fst (renderChar this target dx dy chCode color backgroundColor
               useLighterFont)) !! (4 * p + 3)%nat
  = data target !! (4 * p + 3)%nat /\
  data (fst (blockRenderChar this target dx dy color backgroundColor
               useLighterFont)) !! (4 * p + 3)%nat
  = data target !! (4 * p + 3)%nat.
Proof.
  split; [apply renderChar_alpha_untouched |].
  rewrite blockRenderChar_render_cell. unfold render_cell.
  destruct (rejected this target dx dy); [reflexivity |].
  cbn [fst data]. apply cell_alpha_untouched.
Qed.

(** X13.  A renderer whose scale is 0 or negative draws nothing: a call the
    bounds check accepts returns the target as it was given, without a
    diagnostic. *)
Theorem nonpositive_scale_draws_nothing (this : MinimapCharRenderer)
  (target : ImageData) (dx dy chCode : Z) (color backgroundColor : RGBA8.t)
  (useLighterFont : bool) :
  scale this <= 0 ->
  dx + charWidth this <= width target ->
  dy + charHeight this <= height target ->
  renderChar this target dx dy chCode color backgroundColor useLighterFont
  = (target, []) /\
  blockRenderChar this target dx dy color backgroundColor useLighterFont
  = (target, []).
Proof.
  intros Hscale Hw Hh.
  assert (Hcheck : rejected this target dx dy = false)
    by (apply rejected_false; auto).
  rewrite renderChar_render_cell, blockRenderChar_render_cell.
  unfold render_cell. rewrite Hcheck.
  assert (Hrows : Z.to_nat (charHeight this) = 0%nat).
  { unfold charHeight, Constants.x1_CHAR_HEIGHT. lia. }
  rewrite Hrows. cbn [cell_writes apply_writes fold_left].
  destruct target; split; reflexivity.
Qed.

Lemma nonpositive_scale_draws_nothing_witness :
  let this := constructor full_atlas 0 in
  let target := blank_target 2 3 in
  renderChar this target 2 3 65 white black false = (target, []) /\
  blockRenderChar this target 2 3 white black false = (target, []).
Proof.
  cbv zeta.
  exact (nonpositive_scale_draws_nothing (constructor full_atlas 0)
           (blank_target 2 3) 2 3 65 white black false
           ltac:(vm_compute; discriminate) ltac:(vm_compute; discriminate)
           ltac:(vm_compute; discriminate)).
Defined.

(** ** The render operations: samples outside the atlas, equal colours *)

Lemma typed_get_outside (arr : JS.Uint8ClampedArray) (i : Z) :
  i < 0 \/ Z.of_nat (length arr) <= i -> JS.typed_get arr i = PrimFloat.nan.
Proof.
  intros Hout. unfold JS.typed_get.
  destruct (Z.ltb_spec i 0); [reflexivity |].
  rewrite (proj2 (lookup_ge_None arr (Z.to_nat i))) by lia. reflexivity.
Qed.

Lemma blend_nan_checked :
  for_all_bytes (fun b => for_all_bytes (fun c =>
    PrimFloat.is_nan
      (PrimFloat.add (JS.number_of_Z b)
         (PrimFloat.mul
            (PrimFloat.sub (JS.number_of_Z c) (JS.number_of_Z b))
            (PrimFloat.div PrimFloat.nan 255))))) = true.
Proof. vm_compute. reflexivity. Qed.

(** A sample that is not there (NaN) blends to 0, whatever the colours. *)
Lemma blend_byte_nan (background color : Z) :
  JS.is_byte background -> JS.is_byte color ->
  blend_byte background color PrimFloat.nan = 0.
Proof.
  intros Hb Hc.
  pose proof (for_all_bytes_spec _ blend_nan_checked background Hb) as H.
  cbv beta in H. pose proof (for_all_bytes_spec _ H color Hc) as Hnan.
  cbv beta in Hnan. unfold blend_byte, JS.ToUint8Clamp. now rewrite Hnan.
Qed.

Lemma blend_same_checked :
  for_all_bytes (fun b => for_all_bytes (fun s =>
    PrimFloat.Leibniz.eqb
      (PrimFloat.add (JS.number_of_Z b)
         (PrimFloat.mul
            (PrimFloat.sub (JS.number_of_Z b) (JS.number_of_Z b))
            (PrimFloat.div (JS.number_of_Z s) 255)))
      (JS.number_of_Z b))) = true.
Proof. vm_compute. reflexivity. Qed.

(** Equal channels blend to themselves, whatever the sample. *)
Lemma blend_byte_same (b s : Z) :
  JS.is_byte b -> JS.is_byte s -> blend_byte b b (JS.number_of_Z s) = b.
Proof.
  intros Hb Hs. unfold blend_byte.
  rewrite (for_all_byte_pairs _ _ blend_same_checked b s Hb Hs).
  now apply ToUint8Clamp_byte.
Qed.

(** X14.  When the sample of a pixel lies outside the atlas (the atlas is
    empty or too short for the glyph and scale, or the glyph index is
    negative), [renderChar] stores 0 in the pixel's R, G and B, whatever the
    foreground and background colours: the cell turns black, not
    background-coloured. *)
Theorem renderChar_outside_atlas_is_black (this : MinimapCharRenderer)
  (target : ImageData) (dx dy chCode : Z) (color backgroundColor : RGBA8.t)
  (useLighterFont : bool) (x y k : Z) :
  RGBA8.valid color -> RGBA8.valid backgroundColor -> well_sized target ->
  0 <= dx -> dx + charWidth this <= width target ->
  dy + charHeight this <= height target ->
  0 <= x < charWidth this -> 0 <= y < charHeight this ->
  0 <= dy + y -> 0 <= k < 3 ->
  sample_offset this chCode x y < 0 \/
  Z.of_nat (length (atlas this useLighterFont)) <= sample_offset this chCode x y ->
  data (fst (renderChar this target dx dy chCode color backgroundColor
               useLighterFont)) !! byte_index target dx dy x y k
  = Some 0.
Proof.
  intros Hc Hb Hsize Hdx Hw Hh Hx Hy Hrow Hk Hout.
  unfold byte_index.
  rewrite renderChar_pixel by assumption.
  fold (sample_offset this chCode x y).
  rewrite (typed_get_outside _ _ Hout).
  f_equal. apply blend_byte_nan; now apply channel_is_byte.
Qed.

Lemma renderChar_outside_atlas_is_black_witness :
  let target := mkImageData 1 2 [9; 9; 9; 9; 9; 9; 9; 9] in
  (sample_offset empty_renderer 65 0 1 < 0 \/
   Z.of_nat (length (atlas empty_renderer false))
   <= sample_offset empty_renderer 65 0 1) /\
  data (fst (renderChar empty_renderer target 0 0 65 white white false))
    !! byte_index target 0 0 0 1 2
  = Some 0.
Proof.
  cbv zeta.
  assert (Hout : sample_offset empty_renderer 65 0 1 < 0 \/
                 Z.of_nat (length (atlas empty_renderer false))
                 <= sample_offset empty_renderer 65 0 1)
    by (right; vm_compute; discriminate).
  split; [exact Hout |].
  assert (Hwhite : RGBA8.valid white) by (vm_compute; intuition discriminate).
  exact (renderChar_outside_atlas_is_black empty_renderer
           (mkImageData 1 2 [9; 9; 9; 9; 9; 9; 9; 9]) 0 0 65 white white false
           0 1 2 Hwhite Hwhite ltac:(vm_compute; reflexivity)
           ltac:(lia) ltac:(vm_compute; discriminate)
           ltac:(vm_compute; discriminate)
           ltac:(vm_compute; split; [discriminate | reflexivity])
           ltac:(vm_compute; split; [discriminate | reflexivity])
           ltac:(lia) ltac:(lia) Hout).
Defined.

(** X15.  With the foreground colour equal to the background colour,
    [renderChar] stores exactly that colour in every pixel whose sample lies
    inside the atlas, whatever the glyph. *)
Theorem renderChar_same_colours (this : MinimapCharRenderer)
  (target : ImageData) (dx dy chCode : Z) (backgroundColor : RGBA8.t)
  (useLighterFont : bool) (x y k s : Z) :
  Forall JS.is_byte (atlas this useLighterFont) ->
  RGBA8.valid backgroundColor -> well_sized target ->
  0 <= dx -> dx + charWidth this <= width target ->
  dy + charHeight this <= height target ->
  0 <= x < charWidth this -> 0 <= y < charHeight this ->
  0 <= dy + y -> 0 <= k < 3 ->
  0 <= sample_offset this chCode x y ->
  atlas this useLighterFont !! Z.to_nat (sample_offset this chCode x y) = Some s ->
  data (fst (renderChar this target dx dy chCode backgroundColor backgroundColor
               useLighterFont)) !! byte_index target dx dy x y k
  = Some (channel backgroundColor k).
Proof.
  intros Hbytes Hb Hsize Hdx Hw Hh Hx Hy Hrow Hk Hso Hs.
  unfold byte_index.
  rewrite renderChar_pixel by assumption.
  fold (sample_offset this chCode x y).
  rewrite <- (Z2Nat.id (sample_offset this chCode x y)) by exact Hso.
  rewrite (typed_get_lookup _ _ _ Hs).
  f_equal. apply blend_byte_same; [now apply channel_is_byte |].
  exact (proj1 (Forall_lookup _ _) Hbytes _ _ Hs).
Qed.

(** X16.  An atlas with a cell for each of the 95 glyphs is never read
    outside its bounds: for every character code from -63 on and every pixel
    of the cell, the sample [renderChar] reads is an entry of the atlas. *)
Theorem full_atlas_is_read_in_bounds (this : MinimapCharRenderer)
  (chCode x y : Z) (useLighterFont : bool) :
  Constants.CHAR_COUNT * charWidth this * charHeight this
  <= Z.of_nat (length (atlas this useLighterFont)) ->
  Constants.START_CH_CODE - Constants.CHAR_COUNT <= chCode ->
  0 <= x < charWidth this -> 0 <= y < charHeight this ->
  0 <= sample_offset this chCode x y /\
  is_Some (atlas this useLighterFont !! Z.to_nat (sample_offset this chCode x y)).
Proof.
  change Constants.CHAR_COUNT with 95. change Constants.START_CH_CODE with 32.
  intros Hlen Hcode Hx Hy.
  assert (Hidx : 0 <= _getChIndex chCode <= 94).
  { rewrite _getChIndex_mod by lia.
    pose proof (Z.mod_pos_bound (chCode - 32) 95 ltac:(lia)). lia. }
  unfold sample_offset.
  set (i := _getChIndex chCode) in *.
  set (w := charWidth this) in *. set (h := charHeight this) in *.
  assert (Hcell : 0 <= y * w + x < w * h) by nia.
  assert (Hbase : 0 <= i * w * h) by nia.
  assert (Hend : i * w * h + w * h <= 95 * w * h) by nia.
  split; [lia |].
  apply lookup_lt_is_Some. lia.
Qed.

Lemma renderChar_same_colours_witness :
  let target := blank_target 1 2 in
  Forall JS.is_byte (atlas tiny_renderer true) /\
  0 <= sample_offset tiny_renderer 32 0 0 /\
  atlas tiny_renderer true !! Z.to_nat (sample_offset tiny_renderer 32 0 0)
    = Some 107 /\
  data (fst (renderChar tiny_renderer target 0 0 32 white white true))
    !! byte_index target 0 0 0 0 1
  = Some (channel white 1).
Proof.
  cbv zeta.
  assert (Hatlas : atlas tiny_renderer true = [107; 0]) by (vm_compute; reflexivity).
  assert (Hbytes : Forall JS.is_byte (atlas tiny_renderer true)).
  { rewrite Hatlas. repeat constructor; unfold JS.is_byte; lia. }
  assert (Hso : 0 <= sample_offset tiny_renderer 32 0 0)
    by (vm_compute; discriminate).
  assert (Hs : atlas tiny_renderer true
                 !! Z.to_nat (sample_offset tiny_renderer 32 0 0) = Some 107)
    by (vm_compute; reflexivity).
  assert (Hwhite : RGBA8.valid white) by (vm_compute; intuition discriminate).
  repeat (split; [assumption |]).
  exact (renderChar_same_colours tiny_renderer (blank_target 1 2) 0 0 32 white
           true 0 0 1 107 Hbytes Hwhite ltac:(vm_compute; reflexivity)
           ltac:(lia) ltac:(vm_compute; discriminate)
           ltac:(vm_compute; discriminate)
           ltac:(vm_compute; split; [discriminate | reflexivity])
           ltac:(vm_compute; split; [discriminate | reflexivity])
           ltac:(lia) ltac:(lia) Hso Hs).
Defined.

Lemma full_atlas_is_read_in_bounds_witness :
  Constants.CHAR_COUNT * charWidth sample_renderer * charHeight sample_renderer
  <= Z.of_nat (length (atlas sample_renderer false)) /\
  0 <= sample_offset sample_renderer 8364 0 1 /\
  is_Some (atlas sample_renderer false
             !! Z.to_nat (sample_offset sample_renderer 8364 0 1)).
Proof.
  assert (Hlen :
    Constants.CHAR_COUNT * charWidth sample_renderer * charHeight sample_renderer
    <= Z.of_nat (length (atlas sample_renderer false)))
    by (vm_compute; discriminate).
  split; [exact Hlen |].
  exact (full_atlas_is_read_in_bounds sample_renderer 8364 0 1 false Hlen
           ltac:(vm_compute; discriminate)
           ltac:(vm_compute; split; [discriminate | reflexivity])
           ltac:(vm_compute; split; [discriminate | reflexivity])).
Defined.

(** ** Glyph selection on the printable range and on all integers *)

(** X17.  On the printable range 32..126 the glyph index is the code minus
    32, so different printable characters select different glyphs. *)
Theorem _getChIndex_printable (chCode chCode' : Z) :
  Constants.START_CH_CODE <= chCode <= Constants.END_CH_CODE ->
  Constants.START_CH_CODE <= chCode' <= Constants.END_CH_CODE ->
  _getChIndex chCode = chCode - Constants.START_CH_CODE /\
  (_getChIndex chCode = _getChIndex chCode' -> chCode = chCode').
Proof.
  change Constants.START_CH_CODE with 32. change Constants.END_CH_CODE with 126.
  intros Hc Hc'.
  rewrite !_getChIndex_mod by lia.
  rewrite !Z.mod_small by lia. split; lia.
Qed.

Lemma _getChIndex_printable_witness :
  Constants.START_CH_CODE <= 65 <= Constants.END_CH_CODE /\
  Constants.START_CH_CODE <= 97 <= Constants.END_CH_CODE /\
  _getChIndex 65 = 65 - Constants.START_CH_CODE /\
  (_getChIndex 65 = _getChIndex 97 -> 65 = 97).
Proof.
  assert (H1 : Constants.START_CH_CODE <= 65 <= Constants.END_CH_CODE)
    by (vm_compute; split; discriminate).
  assert (H2 : Constants.START_CH_CODE <= 97 <= Constants.END_CH_CODE)
    by (vm_compute; split; discriminate).
  split; [exact H1 |]. split; [exact H2 |].
  exact (_getChIndex_printable 65 97 H1 H2).
Defined.

(** X18.  For every integer whatsoever the index [_getChIndex] returns lies
    between -94 and 94: it never selects a glyph past the last one. *)
Theorem _getChIndex_bounded (chCode : Z) : -94 <= _getChIndex chCode <= 94.
Proof.
  rewrite _getChIndex_unfold.
  set (c := if chCode - 32 <? 0 then chCode - 32 + 95 else chCode - 32).
  destruct (Z.le_gt_cases 0 c) as [Hpos | Hneg].
  - pose proof (Z.rem_bound_pos c 95 Hpos ltac:(lia)). lia.
  - pose proof (Z.rem_bound_pos_neg c 95 ltac:(lia) ltac:(lia)). lia.
Qed.

(** ** Softening: order, zero and range *)

Lemma soften_step_checked :
  for_all_below 255 (fun b =>
    (soften_normal b <=? soften_normal (b + 1))
    && (soften_light b <=? soften_light (b + 1))) = true.
Proof. vm_compute. reflexivity. Qed.

Lemma soften_order_checked :
  for_all_bytes (fun b =>
    (soften_normal b <=? soften_light b)
    && Bool.eqb (soften_normal b =? 0) (b =? 0)
    && Bool.eqb (soften_light b =? 0) (b =? 0)) = true.
Proof. vm_compute. reflexivity. Qed.

Lemma soften_byte_monotone (n : nat) :
  forall b, 0 <= b -> b + Z.of_nat n <= 255 ->
    soften_normal b <= soften_normal (b + Z.of_nat n) /\
    soften_light b <= soften_light (b + Z.of_nat n).
Proof.
  induction n as [| n IH]; intros b Hb Hn.
  - rewrite Z.add_0_r. lia.
  - destruct (IH b Hb ltac:(lia)) as [IHn IHl].
    pose proof (for_all_below_spec 255 _ soften_step_checked
                  (b + Z.of_nat n) ltac:(lia)) as Hstep.
    cbv beta in Hstep. rewrite andb_true_iff, !Z.leb_le in Hstep.
    replace (b + Z.of_nat (S n)) with (b + Z.of_nat n + 1) by lia. lia.
Qed.

Lemma soften_byte_order (b : Z) :
  JS.is_byte b ->
  soften_normal b <= soften_light b /\
  (soften_normal b = 0 <-> b = 0) /\ (soften_light b = 0 <-> b = 0).
Proof.
  intros Hb.
  pose proof (for_all_bytes_spec _ soften_order_checked b Hb) as H.
  cbv beta in H. rewrite !andb_true_iff, Z.leb_le, !Bool.eqb_true_iff in H.
  destruct H as [[Hle Hn] Hl].
  split; [exact Hle |].
  split; rewrite <- !Z.eqb_eq; [rewrite Hn | rewrite Hl]; reflexivity.
Qed.

Lemma constructor_lookup (charData : JS.Uint8ClampedArray) (scale : Z)
  (i : nat) (b : Z) :
  charData !! i = Some b ->
  charDataNormal (constructor charData scale) !! i = Some (soften_normal b) /\
  charDataLight (constructor charData scale) !! i = Some (soften_light b).
Proof.
  intros Hb. unfold constructor. cbn [charDataNormal charDataLight].
  split; now apply soften_lookup.
Qed.

(** X19.  Softening keeps the order of intensities: where the source atlas
    has a sample no brighter than another, so has each derived atlas. *)
Theorem soften_preserves_order (charData : JS.Uint8ClampedArray) (scale : Z)
  (i j : nat) (b b' : Z) :
  Forall JS.is_byte charData ->
  charData !! i = Some b -> charData !! j = Some b' -> b <= b' ->
  let this := constructor charData scale in
  exists n n' l l',
    charDataNormal this !! i = Some n /\ charDataNormal this !! j = Some n' /\
    charDataLight this !! i = Some l /\ charDataLight this !! j = Some l' /\
    n <= n' /\ l <= l'.
Proof.
  intros Hbytes Hi Hj Hle. cbv zeta.
  destruct (constructor_lookup charData scale i b Hi) as [Hni Hli].
  destruct (constructor_lookup charData scale j b' Hj) as [Hnj Hlj].
  exists (soften_normal b), (soften_normal b'), (soften_light b), (soften_light b').
  repeat (split; [assumption |]).
  pose proof (proj1 (Forall_lookup _ _) Hbytes _ _ Hi) as Hb.
  pose proof (proj1 (Forall_lookup _ _) Hbytes _ _ Hj) as Hb'.
  unfold JS.is_byte in *.
  pose proof (soften_byte_monotone (Z.to_nat (b' - b)) b ltac:(lia) ltac:(lia)) as H.
  replace (b + Z.of_nat (Z.to_nat (b' - b))) with b' in H by lia.
  exact H.
Qed.

Lemma soften_preserves_order_witness :
  Forall JS.is_byte [0; 5; 128; 255] /\
  let this := constructor [0; 5; 128; 255] 2 in
  exists n n' l l',
    charDataNormal this !! 1%nat = Some n /\ charDataNormal this !! 2%nat = Some n' /\
    charDataLight this !! 1%nat = Some l /\ charDataLight this !! 2%nat = Some l' /\
    n <= n' /\ l <= l'.
Proof.
  assert (Hbytes : Forall JS.is_byte [0; 5; 128; 255])
    by (repeat constructor; unfold JS.is_byte; lia).
  split; [exact Hbytes |].
  exact (soften_preserves_order [0; 5; 128; 255] 2 1 2 5 128 Hbytes
           eq_refl eq_refl ltac:(lia)).
Defined.

(** X20.  In the atlas of the lighter font every sample is at least the
    sample of the normal atlas (the ratio 50/60 dims less than 12/15), and
    softening never blanks a pixel: a derived sample is 0 exactly where the
    source sample is 0. *)
Theorem light_atlas_is_brighter (charData : JS.Uint8ClampedArray) (scale : Z)
  (i : nat) (b : Z) :
  Forall JS.is_byte charData ->
  charData !! i = Some b ->
  let this := constructor charData scale in
  exists n l,
    charDataNormal this !! i = Some n /\ charDataLight this !! i = Some l /\
    n <= l /\ (n = 0 <-> b = 0) /\ (l = 0 <-> b = 0).
Proof.
  intros Hbytes Hi. cbv zeta.
  destruct (constructor_lookup charData scale i b Hi) as [Hn Hl].
  exists (soften_normal b), (soften_light b).
  repeat (split; [assumption |]).
  apply soften_byte_order.
  exact (proj1 (Forall_lookup _ _) Hbytes _ _ Hi).
Qed.

Lemma light_atlas_is_brighter_witness :
  Forall JS.is_byte [0; 5; 128; 255] /\
  let this := constructor [0; 5; 128; 255] 1 in
  exists n l,
    charDataNormal this !! 2%nat = Some n /\ charDataLight this !! 2%nat = Some l /\
    n <= l /\ (n = 0 <-> 128 = 0) /\ (l = 0 <-> 128 = 0).
Proof.
  assert (Hbytes : Forall JS.is_byte [0; 5; 128; 255])
    by (repeat constructor; unfold JS.is_byte; lia).
  split; [exact Hbytes |].
  exact (light_atlas_is_brighter [0; 5; 128; 255] 1 2 128 Hbytes eq_refl).
Defined.

(** X21.  The atlases of a renderer built from a byte array are byte arrays
    themselves, and no sample of the one [renderChar] selects exceeds 204
    (212 with the lighter font), whatever the source and the scale. *)
Theorem derived_atlas_range (charData : JS.Uint8ClampedArray) (scale : Z)
  (useLighterFont : bool) :
  Forall JS.is_byte charData ->
  Forall (fun s => JS.is_byte s /\ s <= max_softened useLighterFont)
    (atlas (constructor charData scale) useLighterFont).
Proof.
  intros Hbytes. apply Forall_lookup. intros i s Hs.
  assert (Hlen : (i < length charData)%nat).
  { apply lookup_lt_Some in Hs. unfold atlas, constructor in Hs.
    destruct useLighterFont; cbn [charDataLight charDataNormal] in Hs;
      now rewrite soften_length in Hs. }
  destruct (lookup_lt_is_Some_2 charData i Hlen) as [b Hb].
  destruct (constructor_lookup charData scale i b Hb) as [Hn Hl].
  pose proof (proj1 (Forall_lookup _ _) Hbytes _ _ Hb) as Hbyte.
  destruct (soften_byte_le b Hbyte) as [Hbn Hbl].
  unfold atlas in Hs.
  destruct useLighterFont; [rewrite Hl in Hs | rewrite Hn in Hs];
    injection Hs as <-;
    unfold JS.is_byte, max_softened, soften_normal, soften_light, ratio_of in *;
    lia.
Qed.

Lemma derived_atlas_range_witness :
  Forall JS.is_byte [0; 5; 128; 255] /\
  Forall (fun s => JS.is_byte s /\ s <= max_softened true)
    (atlas (constructor [0; 5; 128; 255] 1) true).
Proof.
  assert (Hbytes : Forall JS.is_byte [0; 5; 128; 255])
    by (repeat constructor; unfold JS.is_byte; lia).
  split; [exact Hbytes |].
  exact (derived_atlas_range [0; 5; 128; 255] 1 true Hbytes).
Defined.
